(** * Energy scheduling pipeline: forecasting with fallback, LP optimisation

    A shallow embedding of [forecast.py] and [optimize.py] (with the schema of
    [db_setup.py]) and the properties their specification states about them.

    Conventions of the embedding.
    - SQLite tables are lists of rows in rowid order (the [id] column is
      AUTOINCREMENT, so appending at the end is inserting); [DELETE ... WHERE]
      is a filter, [executemany("INSERT ...")] appends.
    - REAL columns and Python floats are exact rationals [Q]; rounding (also
      that of [astype(np.float32)]), NaN and infinities are outside the model.
      NULLs are outside the model as well.
    - A pandas [Timestamp] is an instant counted in seconds ([Z]); in the
      [forecasts] and [optimizations] tables the TEXT written by
      [strftime("%Y-%m-%d %H:%M:%S")] is identified with that instant (the
      format is fixed-width, so SQLite's text comparison in [BETWEEN] orders
      the stored texts as the instants are ordered). The [raw_data] table keeps
      the civil fields of its timestamps, because [fetch_data] does text
      arithmetic on them.
    - External libraries are interfaces: [forecast.ForecastLibs] for
      TensorFlow and statsmodels, [optimize.ORTools] for the LP solver. An
      exception is a value of [exn]; only subclasses of [Exception] are
      modelled.
    - The elements of [unique()] on a timestamp column are pandas
      [Timestamp]s, as [optimize_all] uses them ([ts.hour], [ts.strftime]). *)

From Stdlib Require Import ZArith QArith Lia Lqa Ascii.
From stdpp Require Import list sorting strings pretty gmap.

Local Open Scope Z_scope.

(** ** Exceptions and results *)

(** What a library call can raise is opaque to the program: it is caught by
    [except Exception] whatever it is. *)
Inductive exn : Type :=
  | ValueError (msg : string)
  | IndexError
  | KeyError (key : string)
  | NameError (name : string)
  | LibraryError (code : Z).

Inductive result (A : Type) : Type :=
  | Ok (a : A)
  | Raise (e : exn).
Arguments Ok {A} a.
Arguments Raise {A} e.

Global Instance result_ret : MRet result := λ A a, Ok a.
Global Instance result_bind : MBind result := λ A B k r,
  match r with
  | Ok a => k a
  | Raise e => Raise e
  end.

(** [try: body except Exception: handler] *)
Definition try_except {A : Type} (body : result A) (handler : exn → result A) : result A :=
  match body with
  | Ok a => Ok a
  | Raise e => handler e
  end.

(** The result is not a [ValueError]: what a library raises is never one of
    the program's own [ValueError]s. *)
Definition not_value_error {A : Type} (r : result A) : Prop :=
  match r with
  | Raise (ValueError _) => False
  | _ => True
  end.

(** ** Time *)

(** [timedelta(hours=k)] in seconds. *)
Definition timedelta_hours (k : Z) : Z := k * 3600.

(** [ts.hour] of an instant counted from 1970-01-01 00:00:00. *)
Definition hour_of (ts : Z) : Z := (ts `div` 3600) `mod` 24.

(** Civil fields of a [raw_data] timestamp. *)
Record datetime : Type := mk_datetime {
  dt_year : Z; dt_month : Z; dt_day : Z;
  dt_hour : Z; dt_minute : Z; dt_second : Z
}.

(** Days since 1970-01-01 of a proleptic Gregorian date. *)
Definition days_from_civil (y m d : Z) : Z :=
  let y' := if m <=? 2 then y - 1 else y in
  let era := y' `div` 400 in
  let yoe := y' - era * 400 in
  let mp := if m >? 2 then m - 3 else m + 9 in
  let doy := (153 * mp + 2) `div` 5 + d - 1 in
  let doe := yoe * 365 + yoe `div` 4 - yoe `div` 100 + doy in
  era * 146097 + doe - 719468.

(** The instant pandas orders a parsed timestamp by. *)
Definition to_instant (t : datetime) : Z :=
  days_from_civil (dt_year t) (dt_month t) (dt_day t) * 86400
  + dt_hour t * 3600 + dt_minute t * 60 + dt_second t.

(** ** The tables of [db_setup.create_tables] *)

Record Observation : Type := mk_Observation {
  obs_timestamp : datetime;
  obs_hour : Z;
  obs_machine_id : string;
  obs_energy_per_unit : Q;
  obs_production_demand : Z;
  obs_max_capacity : Z;
  obs_energy_cost : Q
}.

Record ForecastPoint : Type := mk_ForecastPoint {
  fc_timestamp : Z;
  fc_machine_id : string;
  fc_predicted_demand : Q
}.

Record OptimizationResult : Type := mk_OptimizationResult {
  opt_timestamp : Z;
  opt_machine_id : string;
  opt_hour : Z;
  optimized_production : Q;
  baseline_production : Z;
  optimized_cost : Q;
  baseline_cost : Q
}.

Record DB : Type := mk_DB {
  raw_data : list Observation;
  forecasts : list ForecastPoint;
  optimizations : list OptimizationResult
}.

Definition set_forecasts (conn : DB) (rows : list ForecastPoint) : DB :=
  {| raw_data := raw_data conn; forecasts := rows; optimizations := optimizations conn |}.

Definition set_optimizations (conn : DB) (rows : list OptimizationResult) : DB :=
  {| raw_data := raw_data conn; forecasts := forecasts conn; optimizations := rows |}.

(** [for x in l: state = body(state, x)], stopping at the first exception. *)
Fixpoint for_each {A S : Type} (l : list A) (body : S → A → result S) (s : S)
    : result S :=
  match l with
  | [] => Ok s
  | x :: l' => s' ← body s x; for_each l' body s'
  end.

(** [unique()] of a pandas column: distinct values in order of first
    appearance. *)
Fixpoint unique {A : Type} `{EqDecision A} (l : list A) : list A :=
  match l with
  | [] => []
  | x :: l' => x :: filter (λ y, y ≠ x) (unique l')
  end.

Module forecast.

(** ** forecast.py: persistence *)

(** The WHERE clause of the DELETE in [persist_forecasts]:
    [machine_id = ? AND timestamp BETWEEN start_ts AND end_ts]. *)
Definition in_horizon (machine_id : string) (base_time : Z) (steps : nat)
    (r : ForecastPoint) : Prop :=
  fc_machine_id r = machine_id
  ∧ base_time + timedelta_hours 1 ≤ fc_timestamp r
  ∧ fc_timestamp r ≤ base_time + timedelta_hours (Z.of_nat steps).

Global Instance in_horizon_dec m b s r : Decision (in_horizon m b s r).
Proof. unfold in_horizon. apply _. Defined.

(** The rows built by the [enumerate(preds)] loop. *)
Definition forecast_data (machine_id : string) (base_time : Z) (preds : list Q)
    : list ForecastPoint :=
  imap (λ i val,
    {| fc_timestamp := base_time + timedelta_hours (Z.of_nat i + 1);
       fc_machine_id := machine_id;
       fc_predicted_demand := val |}) preds.

Definition persist_forecasts (conn : DB) (machine_id : string) (base_time : Z)
    (preds : list Q) : DB :=
  let kept :=
    filter (λ r, ¬ in_horizon machine_id base_time (length preds) r) (forecasts conn) in
  set_forecasts conn (kept ++ forecast_data machine_id base_time preds).

(** ** forecast.py: the strategies *)

(** The optional libraries. [TF_AVAILABLE] and [SM_AVAILABLE] are the flags
    set by the two guarded imports. [Sequential_fit X y epochs] stands for
    building, compiling and fitting the Keras model, [model_predict] for
    [model.predict(w)[0, 0]], [ARIMA_fit_forecast series steps] for
    [ARIMA(series, order=(5, 1, 0)).fit().forecast(steps)]. A library call
    that raises gives [None]. *)
Class ForecastLibs : Type := {
  TF_AVAILABLE : bool;
  SM_AVAILABLE : bool;
  keras_model : Type;
  Sequential_fit : list (list Q) → list Q → nat → option keras_model;
  model_predict : keras_model → list Q → option Q;
  ARIMA_fit_forecast : list Q → nat → option (list Q)
}.

(** A call into a library: the name must have been imported, and whatever the
    library raises is a [LibraryError]. *)
Definition library_call {A : Type} (available : bool) (name : string)
    (call : option A) : result A :=
  if available then
    match call with
    | Some a => Ok a
    | None => Raise (LibraryError 0)
    end
  else Raise (NameError name).

(** [series[i:i + window]] and [series[i + window]] for
    [i in range(len(series) - window)]; the index [i + window] is in range
    there, so the default of [nth] is never returned. *)
Definition make_sequences (series : list Q) (window : nat) : list (list Q) * list Q :=
  let idx := seq 0 (length series - window) in
  ((λ i, take window (drop i series)) <$> idx,
   (λ i, nth (i + window) series 0%Q) <$> idx).

(** The autoregressive loop [for _ in range(steps)] of [lstm_forecast]. *)
Fixpoint rollout `{ForecastLibs} (model : keras_model) (cur_window : list Q)
    (steps : nat) : result (list Q) :=
  match steps with
  | O => Ok []
  | S steps' =>
      p ← library_call TF_AVAILABLE "model.predict" (model_predict model cur_window);
      preds ← rollout model (drop 1 cur_window ++ [p]) steps';
      Ok (p :: preds)
  end.

Definition lstm_forecast `{ForecastLibs} (series : list Q) (steps epochs : nat)
    : result (list Q) :=
  let '(X, y) := make_sequences series 24 in
  if decide (length X < 10)%nat then
    Raise (ValueError "Not enough data to train LSTM model.")
  else
    model ← library_call TF_AVAILABLE "Sequential" (Sequential_fit X y epochs);
    let last_window := drop (length series - 24) series in
    rollout model last_window steps.

Definition arima_forecast `{ForecastLibs} (series : list Q) (steps : nat)
    : result (list Q) :=
  if decide (length series < 30)%nat then
    Raise (ValueError "Not enough data for ARIMA model.")
  else
    library_call SM_AVAILABLE "ARIMA" (ARIMA_fit_forecast series steps).

(** [[float(series.iloc[-1])] * 24] *)
Definition naive_forecast (series : list Z) : result (list Q) :=
  match last series with
  | Some v => Ok (replicate 24 (inject_Z v))
  | None => Raise IndexError
  end.

(** ** forecast.py: the batch *)

Inductive Strategy : Type := LSTM | ARIMA | NAIVE.

Global Instance Strategy_eq_dec : EqDecision Strategy.
Proof. solve_decision. Defined.

(** [load_data(conn)]: all of [raw_data], timestamps parsed. *)
Definition load_data (conn : DB) : list Observation := raw_data conn.

(** [sort_values('timestamp')] *)
Definition obs_before (a b : Observation) : Prop :=
  to_instant (obs_timestamp a) ≤ to_instant (obs_timestamp b).

Global Instance obs_before_dec : RelDecision obs_before.
Proof. intros a b. unfold obs_before. apply _. Defined.

Definition sort_values_timestamp (df : list Observation) : list Observation :=
  merge_sort obs_before df.

(** The demand series of machine [m]:
    [df[df['machine_id'] == m].sort_values('timestamp')['production_demand']]. *)
Definition machine_series (df : list Observation) (m : string) : list Z :=
  obs_production_demand <$>
    sort_values_timestamp (filter (λ o, obs_machine_id o = m) df).

(** The body of the [try] in [main]: the strategy is picked by the two
    capability flags. The tag records which branch produced the values. *)
Definition try_strategy `{ForecastLibs} (series : list Z) : result (Strategy * list Q) :=
  if TF_AVAILABLE then
    preds ← lstm_forecast (inject_Z <$> series) 24 10; Ok (LSTM, preds)
  else if SM_AVAILABLE then
    preds ← arima_forecast (inject_Z <$> series) 24; Ok (ARIMA, preds)
  else
    preds ← naive_forecast series; Ok (NAIVE, preds).

(** [try: ... except Exception: preds = [float(series.iloc[-1])] * 24] *)
Definition forecast_machine `{ForecastLibs} (series : list Z) : result (Strategy * list Q) :=
  try_except (try_strategy series)
    (λ _, preds ← naive_forecast series; Ok (NAIVE, preds)).

(** [df['timestamp'].max()] *)
Definition max_timestamp (df : list Observation) : Z :=
  match df with
  | [] => 0
  | o :: df' =>
      foldr (λ o' acc, Z.max (to_instant (obs_timestamp o')) acc)
            (to_instant (obs_timestamp o)) df'
  end.

(** One iteration of [for m in machines]. *)
Definition forecast_step `{ForecastLibs} (df : list Observation) (now : Z)
    (conn : DB) (m : string) : result DB :=
  sp ← forecast_machine (machine_series df m);
  Ok (persist_forecasts conn m now sp.2).

Definition main `{ForecastLibs} (conn : DB) : result DB :=
  let df := load_data conn in
  match df with
  | [] => Ok conn
  | _ :: _ =>
      let now := max_timestamp df in
      let machines := unique (obs_machine_id <$> df) in
      for_each machines (forecast_step df now) conn
  end.

End forecast.

(** ** SQLite expressions over TEXT, as [fetch_data]'s query uses them *)

Module sqlite.

Fixpoint zeros (n : nat) : string :=
  match n with
  | O => EmptyString
  | S n' => String "0"%char (zeros n')
  end.

(** [%04d], [%02d] of a non-negative field. *)
Definition zero_pad (width : nat) (n : Z) : string :=
  let s := pretty n in
  zeros (width - String.length s) +:+ s.

(** The text of a [raw_data.timestamp]: ["%Y-%m-%d %H:%M:%S"]. *)
Definition strftime (t : datetime) : string :=
  zero_pad 4 (dt_year t) +:+ "-" +:+ zero_pad 2 (dt_month t) +:+ "-" +:+
  zero_pad 2 (dt_day t) +:+ " " +:+ zero_pad 2 (dt_hour t) +:+ ":" +:+
  zero_pad 2 (dt_minute t) +:+ ":" +:+ zero_pad 2 (dt_second t).

Definition digit_of (c : ascii) : option Z :=
  let n := Z.of_N (N_of_ascii c) in
  if decide (48 ≤ n ≤ 57) then Some (n - 48) else None.

Fixpoint leading_digits (s : string) (acc : Z) : Z :=
  match s with
  | String c s' =>
      match digit_of c with
      | Some d => leading_digits s' (10 * acc + d)
      | None => acc
      end
  | EmptyString => acc
  end.

Fixpoint skip_spaces (s : string) : string :=
  match s with
  | String " "%char s' => skip_spaces s'
  | _ => s
  end.

(** The numeric value SQLite gives a TEXT operand of an arithmetic operator:
    the longest numeric prefix, 0 when there is none. Only the integer prefix
    is modelled; the texts met here (timestamps and ['1 day']) have no
    fraction or exponent after their leading digits. *)
Definition to_numeric (s : string) : Z :=
  match skip_spaces s with
  | String "-"%char s' => - leading_digits s' 0
  | String "+"%char s' => leading_digits s' 0
  | s' => leading_digits s' 0
  end.

(** [a - b] on two TEXT operands. *)
Definition text_minus (a b : string) : Z := to_numeric a - to_numeric b.

(** [col > e] where [col] is a TEXT column and [e] an integer-valued
    expression without affinity: TEXT affinity is applied to [e], then the
    texts are compared bytewise. (Compared as it is, the integer would be
    smaller than every TEXT, which makes the comparison true more often,
    never less.) *)
Definition text_column_gt (col : string) (e : Z) : bool :=
  String.ltb (pretty e) col.

(** [MAX(col)] over TEXT; [None] is NULL (empty table). *)
Definition max_text (l : list string) : option string :=
  match l with
  | [] => None
  | s :: l' => Some (foldr (λ x acc, if String.ltb acc x then x else acc) s l')
  end.

End sqlite.

(** Sums and averages in exact arithmetic (the order of summation is
    immaterial there). *)
Definition Qsum (l : list Q) : Q := foldr Qplus 0%Q l.

Definition AVG (l : list Q) : Q := (Qsum l / inject_Z (Z.of_nat (length l)))%Q.

(** Python's [min(a, b)]: [b] only when it is strictly smaller. *)
Definition py_min (a b : Q) : Q := if Qlt_le_dec b a then b else a.

(** Python's [int(x)] on a float: truncation towards zero. *)
Definition py_int (x : Q) : Z := Qnum x `quot` Zpos (Qden x).

Module optimize.

(** ** optimize.py: reading the inputs *)

(** A row of [specs_df], indexed by [machine_id]. *)
Record MachineSpec : Type := mk_MachineSpec {
  spec_machine_id : string;
  energy_per_unit : Q;
  max_capacity : Q
}.

(** [ORDER BY machine_id, timestamp] *)
Definition fc_before (a b : ForecastPoint) : Prop :=
  (String.le (fc_machine_id a) (fc_machine_id b) ∧ fc_machine_id a ≠ fc_machine_id b)
  ∨ (fc_machine_id a = fc_machine_id b ∧ fc_timestamp a ≤ fc_timestamp b).

Global Instance fc_before_dec : RelDecision fc_before.
Proof. intros a b. unfold fc_before. apply _. Defined.

(** [WHERE timestamp > (SELECT MAX(timestamp) FROM raw_data) - '1 day'],
    with [mx] the value of the subquery. *)
Definition in_specs_window (mx : string) (o : Observation) : bool :=
  sqlite.text_column_gt (sqlite.strftime (obs_timestamp o))
                        (sqlite.text_minus mx "1 day").

(** [SELECT machine_id, AVG(energy_per_unit), AVG(max_capacity) ... GROUP BY
    machine_id] over the rows that passed the WHERE clause. *)
Definition group_specs (rows : list Observation) : list MachineSpec :=
  (λ m,
    let g := filter (λ o, obs_machine_id o = m) rows in
    {| spec_machine_id := m;
       energy_per_unit := AVG (obs_energy_per_unit <$> g);
       max_capacity := AVG ((λ o, inject_Z (obs_max_capacity o)) <$> g) |})
  <$> merge_sort String.le (unique (obs_machine_id <$> rows)).

Definition fetch_specs (raw : list Observation) : list MachineSpec :=
  match sqlite.max_text ((λ o, sqlite.strftime (obs_timestamp o)) <$> raw) with
  | None => []
  | Some mx => group_specs (filter (λ o, in_specs_window mx o) raw)
  end.

(** [cost_df.set_index(['machine_id', 'hour'])['energy_cost'].to_dict()] of
    [SELECT machine_id, hour, AVG(energy_cost) ... GROUP BY machine_id, hour]. *)
Definition fetch_energy_cost_map (raw : list Observation) : gmap (string * Z) Q :=
  foldl (λ acc k,
      <[k := AVG (obs_energy_cost <$>
                  filter (λ o, (obs_machine_id o, obs_hour o) = k) raw)]> acc)
    ∅ (unique ((λ o, (obs_machine_id o, obs_hour o)) <$> raw)).

Definition fetch_data (conn : DB)
    : list ForecastPoint * list MachineSpec * gmap (string * Z) Q :=
  (merge_sort fc_before (forecasts conn),
   fetch_specs (raw_data conn),
   fetch_energy_cost_map (raw_data conn)).

(** [specs_df.loc[mid, ...]]: the row of [mid], [KeyError] when there is none. *)
Definition loc (specs_df : list MachineSpec) (mid : string) : result MachineSpec :=
  match list_find (λ s, spec_machine_id s = mid) specs_df with
  | Some (_, s) => Ok s
  | None => Raise (KeyError mid)
  end.

(** ** optimize.py: the linear program *)

(** [Σ coefficient · variable <= upper]. A variable is named by its key
    [(machine_id, timestamp)] in the [production] dictionary. *)
Record Constraint : Type := mk_Constraint {
  terms : list (Q * (string * Z));
  upper : Q
}.

Record Solver : Type := mk_Solver {
  variables : list ((string * Z) * (Q * Q));
  constraints : list Constraint;
  objective : gmap (string * Z) Q;
  minimization : bool
}.

Definition empty_solver : Solver :=
  {| variables := []; constraints := []; objective := ∅; minimization := false |}.

Definition NumVar (s : Solver) (lb ub : Q) (var : string * Z) : Solver :=
  {| variables := variables s ++ [(var, (lb, ub))];
     constraints := constraints s;
     objective := objective s;
     minimization := minimization s |}.

Definition Add (s : Solver) (c : Constraint) : Solver :=
  {| variables := variables s;
     constraints := constraints s ++ [c];
     objective := objective s;
     minimization := minimization s |}.

Definition SetCoefficient (s : Solver) (var : string * Z) (coefficient : Q) : Solver :=
  {| variables := variables s;
     constraints := constraints s;
     objective := <[var := coefficient]> (objective s);
     minimization := minimization s |}.

Definition SetMinimization (s : Solver) : Solver :=
  {| variables := variables s;
     constraints := constraints s;
     objective := objective s;
     minimization := true |}.

Inductive Status : Type :=
  | OPTIMAL | FEASIBLE | INFEASIBLE | UNBOUNDED | ABNORMAL | MODEL_INVALID | NOT_SOLVED.

Global Instance Status_eq_dec : EqDecision Status.
Proof. solve_decision. Defined.

(** OR-tools: whether [CreateSolver('SCIP')] gives a solver, and what
    [Solve()] returns for a model: the status and [solution_value()] of each
    variable. *)
Class ORTools : Type := {
  SCIP_available : bool;
  Solve : Solver → Status * (string * Z → Q)
}.

Definition CreateSolver `{ORTools} : option Solver :=
  if SCIP_available then Some empty_solver else None.

(** The pairs visited by [for mid in machines: for ts in timestamps]. *)
Definition pairs (machines : list string) (timestamps : list Z) : list (string * Z) :=
  mid ← machines; ts ← timestamps; [(mid, ts)].

(** The dictionary comprehension over [forecast_df.iterrows()]: a later row
    replaces an earlier one with the same key. *)
Definition build_pred_map (forecast_df : list ForecastPoint) : gmap (string * Z) Q :=
  foldl (λ acc r, <[(fc_machine_id r, fc_timestamp r) := fc_predicted_demand r]> acc)
        ∅ forecast_df.

(** [pred_map.get((mid, ts), 0)] *)
Definition pred_get (pred_map : gmap (string * Z) Q) (var : string * Z) : Q :=
  default 0%Q (pred_map !! var).

Definition default_cost : Q := 15 # 100.

(** [energy_cost_map.get((mid, ts.hour), default_cost)] *)
Definition cost_get (energy_cost_map : gmap (string * Z) Q) (var : string * Z) : Q :=
  default default_cost (energy_cost_map !! (var.1, hour_of var.2)).

(** Step 2: one variable per pair, bounded by [0] and the machine's capacity. *)
Definition define_variables (specs_df : list MachineSpec) (vars : list (string * Z))
    (solver : Solver) : result Solver :=
  for_each vars (λ s var,
    spec ← loc specs_df var.1;
    Ok (NumVar s 0 (max_capacity spec) var)) solver.

Definition plant_capacity_limit (specs_df : list MachineSpec) : Q :=
  (Qsum (max_capacity <$> specs_df) * (9 # 10))%Q.

(** Step 3, constraint 1: per timestamp, total production within the plant
    limit. *)
Definition add_plant_constraints (specs_df : list MachineSpec)
    (machines : list string) (timestamps : list Z) (solver : Solver) : Solver :=
  foldl (λ s ts,
      Add s {| terms := (λ m, (1%Q, (m, ts))) <$> machines;
               upper := plant_capacity_limit specs_df |})
    solver timestamps.

(** Step 3, constraint 2: per pair, production within the predicted demand. *)
Definition add_demand_constraints (pred_map : gmap (string * Z) Q)
    (vars : list (string * Z)) (solver : Solver) : Solver :=
  foldl (λ s var, Add s {| terms := [(1%Q, var)]; upper := pred_get pred_map var |})
    solver vars.

(** Step 4: the cost coefficient of every variable. *)
Definition define_objective (specs_df : list MachineSpec)
    (energy_cost_map : gmap (string * Z) Q) (vars : list (string * Z))
    (solver : Solver) : result Solver :=
  for_each vars (λ s var,
    spec ← loc specs_df var.1;
    let cost_coefficient := (energy_per_unit spec * cost_get energy_cost_map var)%Q in
    Ok (SetCoefficient s var cost_coefficient)) solver.

(** Steps 2 to 4 on a fresh solver. *)
Definition build_model (specs_df : list MachineSpec)
    (energy_cost_map pred_map : gmap (string * Z) Q)
    (machines : list string) (timestamps : list Z) (solver : Solver) : result Solver :=
  let vars := pairs machines timestamps in
  s ← define_variables specs_df vars solver;
  let s := add_plant_constraints specs_df machines timestamps s in
  let s := add_demand_constraints pred_map vars s in
  s ← define_objective specs_df energy_cost_map vars s;
  Ok (SetMinimization s).

(** ** optimize.py: persisting the result *)

(** The tuple appended to [results] for one pair. *)
Definition result_row (specs_df : list MachineSpec)
    (energy_cost_map pred_map : gmap (string * Z) Q)
    (solution_value : string * Z → Q) (var : string * Z) : result OptimizationResult :=
  let opt_prod := solution_value var in
  spec ← loc specs_df var.1;
  let baseline_prod := py_min (pred_get pred_map var) (max_capacity spec) in
  let energy_cost := cost_get energy_cost_map var in
  let opt_cost := (opt_prod * energy_per_unit spec * energy_cost)%Q in
  let base_cost := (baseline_prod * energy_per_unit spec * energy_cost)%Q in
  Ok {| opt_timestamp := var.2;
        opt_machine_id := var.1;
        opt_hour := hour_of var.2;
        optimized_production := opt_prod;
        baseline_production := py_int baseline_prod;
        optimized_cost := opt_cost;
        baseline_cost := base_cost |}.

Definition build_results (specs_df : list MachineSpec)
    (energy_cost_map pred_map : gmap (string * Z) Q)
    (solution_value : string * Z → Q) (vars : list (string * Z))
    : result (list OptimizationResult) :=
  for_each vars (λ results var,
    row ← result_row specs_df energy_cost_map pred_map solution_value var;
    Ok (results ++ [row])) [].

(** [sorted(forecast_df['timestamp'].unique())] and
    [sorted(forecast_df['machine_id'].unique())] *)
Definition sorted_timestamps (forecast_df : list ForecastPoint) : list Z :=
  merge_sort Z.le (unique (fc_timestamp <$> forecast_df)).

Definition sorted_machines (forecast_df : list ForecastPoint) : list string :=
  merge_sort String.le (unique (fc_machine_id <$> forecast_df)).

(** What the run prints. *)
Inductive Report : Type :=
  | NoForecasts          (* "No forecasts found. Run forecast.py first." *)
  | SolverNotAvailable   (* "SCIP solver not available." *)
  | Saved                (* "Optimization complete and results have been saved ..." *)
  | NoOptimalSolution.   (* "The problem does not have an optimal solution." *)

Global Instance Report_eq_dec : EqDecision Report.
Proof. solve_decision. Defined.

(** [optimize_all(conn)]. An exception leaves the function before
    [conn.commit()], so [Raise] carries no database: nothing was written. *)
Definition optimize_all `{ORTools} (conn : DB) : result (Report * DB) :=
  let '(forecast_df, specs_df, energy_cost_map) := fetch_data conn in
  match forecast_df with
  | [] => Ok (NoForecasts, conn)
  | _ :: _ =>
      let timestamps := sorted_timestamps forecast_df in
      let machines := sorted_machines forecast_df in
      match CreateSolver with
      | None => Ok (SolverNotAvailable, conn)
      | Some solver =>
          let pred_map := build_pred_map forecast_df in
          solver ← build_model specs_df energy_cost_map pred_map machines timestamps solver;
          let '(status, solution_value) := Solve solver in
          if decide (status = OPTIMAL) then
            results ← build_results specs_df energy_cost_map pred_map solution_value
                                    (pairs machines timestamps);
            Ok (Saved, set_optimizations conn results)
          else Ok (NoOptimalSolution, conn)
      end
  end.

(** ** The solver's contract *)

Definition constraint_holds (solution_value : string * Z → Q) (c : Constraint) : Prop :=
  (Qsum ((λ t, t.1 * solution_value t.2) <$> terms c) <= upper c)%Q.

Definition within_bounds (solution_value : string * Z → Q)
    (v : (string * Z) * (Q * Q)) : Prop :=
  (v.2.1 <= solution_value v.1 ∧ solution_value v.1 <= v.2.2)%Q.

(** A solution that respects every variable's bounds and every constraint. *)
Definition feasible (s : Solver) (solution_value : string * Z → Q) : Prop :=
  Forall (within_bounds solution_value) (variables s)
  ∧ Forall (constraint_holds solution_value) (constraints s).

Global Instance Qle_dec (x y : Q) : Decision (x <= y)%Q :=
  match Qlt_le_dec y x with
  | left Hlt => right (Qlt_not_le _ _ Hlt)
  | right Hle => left Hle
  end.

Global Instance within_bounds_dec solution_value v :
  Decision (within_bounds solution_value v).
Proof. unfold within_bounds. apply _. Defined.

Global Instance constraint_holds_dec solution_value c :
  Decision (constraint_holds solution_value c).
Proof. unfold constraint_holds. apply _. Defined.

Global Instance feasible_dec s solution_value : Decision (feasible s solution_value).
Proof. unfold feasible. apply _. Defined.

(** OR-tools reports [OPTIMAL] only with a feasible solution. *)
Definition solver_sound `{ORTools} : Prop :=
  ∀ s solution_value, Solve s = (OPTIMAL, solution_value) → feasible s solution_value.

(** ** The trailing window of the specification *)

(** Follows the specification's words, for comparison with [fetch_specs]: the
    per-machine averages over the observations of the last day before the
    latest observation. *)
Definition specs_trailing_day (raw : list Observation) : list MachineSpec :=
  let latest := forecast.max_timestamp raw in
  group_specs
    (filter (λ o, latest - 86400 < to_instant (obs_timestamp o)) raw).

End optimize.

(** * Notions used to state further properties *)

(** The key a forecast row is looked up by in [optimize_all]. *)
Definition fc_key (r : ForecastPoint) : string * Z := (fc_machine_id r, fc_timestamp r).

(** The predictions [main] persists for machine [m]: those of [forecast_machine]
    on the machine's series. *)
Definition batch_predictions `{forecast.ForecastLibs} (df : list Observation)
    (m : string) : list Q :=
  match forecast.forecast_machine (forecast.machine_series df m) with
  | Ok sp => sp.2
  | Raise _ => []
  end.

(** The rows of the forecast table that no DELETE of the batch removes. *)
Definition outside_horizons `{forecast.ForecastLibs} (df : list Observation)
    (now : Z) (machines : list string) (r : ForecastPoint) : Prop :=
  Forall (λ m, ¬ forecast.in_horizon m now (length (batch_predictions df m)) r) machines.

Global Instance outside_horizons_dec `{forecast.ForecastLibs} df now machines r :
  Decision (outside_horizons df now machines r).
Proof. unfold outside_horizons. apply _. Defined.

(** The observations that pass the WHERE clause of the specification query of
    [fetch_data]. *)
Definition specs_rows (raw : list Observation) : list Observation :=
  match sqlite.max_text ((λ o, sqlite.strftime (obs_timestamp o)) <$> raw) with
  | None => []
  | Some mx => filter (λ o, optimize.in_specs_window mx o) raw
  end.

(** The value of the objective for a solution: [Σ coefficient · variable]. *)
Definition objective_value (s : optimize.Solver) (solution_value : string * Z → Q) : Q :=
  Qsum ((λ kc, kc.2 * solution_value kc.1)%Q <$> map_to_list (optimize.objective s)).

(** Rows ordered by machine id, then by timestamp. *)
Definition key_lt (a b : string * Z) : Prop :=
  (String.le a.1 b.1 ∧ a.1 ≠ b.1) ∨ (a.1 = b.1 ∧ a.2 < b.2).

(** * Sample data *)

Definition sample_conn : DB :=
  {| raw_data := [];
     forecasts := [mk_ForecastPoint 3600 "M1" 5; mk_ForecastPoint 7200 "M2" 7;
                   mk_ForecastPoint 10800 "M1" 9];
     optimizations := [] |}.

(** Both libraries installed and never failing: the model predicts the last
    value of its window, ARIMA repeats the last value of the series. *)
Definition steady_libs : forecast.ForecastLibs :=
  {| forecast.TF_AVAILABLE := true;
     forecast.SM_AVAILABLE := true;
     forecast.keras_model := unit;
     forecast.Sequential_fit := λ _ _ _, Some ();
     forecast.model_predict := λ _ w, Some (default 0%Q (last w));
     forecast.ARIMA_fit_forecast := λ s steps,
       Some (replicate steps (default 0%Q (last s))) |}.

(** TensorFlow installed, but training fails. *)
Definition failing_libs : forecast.ForecastLibs :=
  {| forecast.TF_AVAILABLE := true;
     forecast.SM_AVAILABLE := true;
     forecast.keras_model := unit;
     forecast.Sequential_fit := λ _ _ _, None;
     forecast.model_predict := λ _ w, None;
     forecast.ARIMA_fit_forecast := λ s steps, None |}.

(** A solver that proposes [candidate] and reports [OPTIMAL] when it is
    feasible for the model, [INFEASIBLE] otherwise. *)
Definition checking_solver (candidate : string * Z → Q) : optimize.ORTools :=
  {| optimize.SCIP_available := true;
     optimize.Solve := λ s,
       if decide (optimize.feasible s candidate)
       then (optimize.OPTIMAL, candidate)
       else (optimize.INFEASIBLE, candidate) |}.

Definition idle_solver : optimize.ORTools := checking_solver (λ _, 0%Q).

Definition no_solver : optimize.ORTools :=
  {| optimize.SCIP_available := false;
     optimize.Solve := λ s, (optimize.NOT_SOLVED, λ _, 0%Q) |}.

Definition infeasible_solver : optimize.ORTools :=
  {| optimize.SCIP_available := true;
     optimize.Solve := λ s, (optimize.INFEASIBLE, λ _, 0%Q) |}.

(** Two observations of one machine, five days apart. *)
Definition stale_raw : list Observation :=
  [ {| obs_timestamp := mk_datetime 2024 1 10 0 0 0; obs_hour := 0;
       obs_machine_id := "M1"; obs_energy_per_unit := 2;
       obs_production_demand := 30; obs_max_capacity := 40;
       obs_energy_cost := 1 # 10 |};
    {| obs_timestamp := mk_datetime 2024 1 15 0 0 0; obs_hour := 0;
       obs_machine_id := "M1"; obs_energy_per_unit := 4;
       obs_production_demand := 90; obs_max_capacity := 120;
       obs_energy_cost := 2 # 10 |} ].

(** One machine of capacity 80 with a forecast of 52.7 at 01:00 and an old
    result row. *)
Definition small_plant : DB :=
  {| raw_data :=
       [ {| obs_timestamp := mk_datetime 2024 1 15 0 0 0; obs_hour := 0;
            obs_machine_id := "M1"; obs_energy_per_unit := 2;
            obs_production_demand := 50; obs_max_capacity := 80;
            obs_energy_cost := 1 # 10 |} ];
     forecasts := [mk_ForecastPoint 1705280400 "M1" (527 # 10)];
     optimizations := [mk_OptimizationResult 0 "M0" 0 1 1 1 1] |}.

(** Two machines of capacity 80 observed at 2024-01-15 00:00:00; forecasts
    for A at 01:00 and 02:00 and for B at 01:00 only. *)
Definition gappy_plant : DB :=
  {| raw_data :=
       [ {| obs_timestamp := mk_datetime 2024 1 15 0 0 0; obs_hour := 0;
            obs_machine_id := "A"; obs_energy_per_unit := 2;
            obs_production_demand := 50; obs_max_capacity := 80;
            obs_energy_cost := 1 # 10 |};
         {| obs_timestamp := mk_datetime 2024 1 15 0 0 0; obs_hour := 0;
            obs_machine_id := "B"; obs_energy_per_unit := 3;
            obs_production_demand := 60; obs_max_capacity := 80;
            obs_energy_cost := 1 # 10 |} ];
     forecasts :=
       [ mk_ForecastPoint 1705280400 "A" 50;
         mk_ForecastPoint 1705284000 "A" 40;
         mk_ForecastPoint 1705280400 "B" 60 ];
     optimizations := [] |}.

(** Produce what is forecast. *)
Definition follow_demand (var : string * Z) : Q :=
  if decide (var = ("A", 1705280400)) then 50
  else if decide (var = ("A", 1705284000)) then 40
  else if decide (var = ("B", 1705280400)) then 60
  else 0.

Definition follow_demand_solver : optimize.ORTools := checking_solver follow_demand.

Definition gappy_plant_saved : DB := Eval vm_compute in
    match optimize.optimize_all (H := follow_demand_solver) gappy_plant with
    | Ok (_, conn') => conn'
    | Raise _ => gappy_plant
    end.

Definition small_plant_saved : DB := Eval vm_compute in
    match optimize.optimize_all (H := idle_solver) small_plant with
    | Ok (_, conn') => conn'
    | Raise _ => small_plant
    end.

(** A history of 34 values: 1, 2, ..., 34. *)
Definition ramp : list Q := inject_Z <$> seqZ 1 34.

(** The forecast of a machine that was never observed. *)
Definition orphan_forecast : DB :=
  set_forecasts gappy_plant
    (forecasts gappy_plant ++ [mk_ForecastPoint 1705280400 "C" 10]).


(** A forecast below zero, as a statistical model can produce. *)
Definition negative_demand_plant : DB :=
  set_forecasts gappy_plant [mk_ForecastPoint 1705280400 "A" (-5 # 1)].

(** The model [optimize_all] builds for [gappy_plant]. *)
Definition gappy_model : optimize.Solver :=
  match optimize.build_model (optimize.fetch_data gappy_plant).1.2
          (optimize.fetch_data gappy_plant).2
          (optimize.build_pred_map (optimize.fetch_data gappy_plant).1.1)
          (optimize.sorted_machines (optimize.fetch_data gappy_plant).1.1)
          (optimize.sorted_timestamps (optimize.fetch_data gappy_plant).1.1)
          optimize.empty_solver with
  | Ok s => s
  | Raise _ => optimize.empty_solver
  end.

(** The older of the two observations of [stale_raw]. *)
Definition stale_old : Observation :=
  {| obs_timestamp := mk_datetime 2024 1 10 0 0 0; obs_hour := 0;
     obs_machine_id := "M1"; obs_energy_per_unit := 2;
     obs_production_demand := 30; obs_max_capacity := 40;
     obs_energy_cost := 1 # 10 |}.

(** * Properties *)

(** ** Lists and filters *)

Section filters.
Context {A : Type} (P : A → Prop) `{!∀ x, Decision (P x)}.

Lemma filter_all (l : list A) : Forall P l → filter P l = l.
Proof.
  induction 1 as [|x l Hx _ IH]; [done|].
  by rewrite filter_cons_True, IH.
Qed.

Lemma filter_none (l : list A) : Forall (λ x, ¬ P x) l → filter P l = [].
Proof.
  induction 1 as [|x l Hx _ IH]; [done|].
  by rewrite filter_cons_False.
Qed.
End filters.

(** ** Persisting a forecast *)

Section persist.
Import forecast.
Implicit Types (conn : DB) (m : string) (base : Z) (preds : list Q).

Lemma forecast_data_lookup m base preds i :
  forecast_data m base preds !! i =
    (λ val, mk_ForecastPoint (base + timedelta_hours (Z.of_nat i + 1)) m val)
      <$> preds !! i.
Proof. unfold forecast_data. by rewrite list_lookup_imap. Qed.

Lemma length_forecast_data m base preds :
  length (forecast_data m base preds) = length preds.
Proof. apply length_imap. Qed.

(** Every inserted row lies in the horizon that was just cleared. *)
Lemma forecast_data_in_horizon m base preds :
  Forall (in_horizon m base (length preds)) (forecast_data m base preds).
Proof.
  apply Forall_lookup. intros i r Hr.
  rewrite forecast_data_lookup in Hr.
  destruct (preds !! i) as [v|] eqn:Hv; simplify_eq/=.
  apply lookup_lt_Some in Hv.
  unfold in_horizon, timedelta_hours; simpl. split; [done|lia].
Qed.

Lemma forecast_data_machine m base preds :
  Forall (λ r, fc_machine_id r = m) (forecast_data m base preds).
Proof.
  eapply Forall_impl; [apply forecast_data_in_horizon|]. by intros r [? _].
Qed.


End persist.



(** C7. [persist_forecasts] for machine [m] leaves the rows of every other
    machine as they were, and the rows of [m] outside the horizon
    [[base_time + 1h, base_time + steps·h]] as they were; the other tables
    are not touched. *)
Theorem persist_forecasts_frame
    (conn : DB) (m : string) (base : Z) (preds : list Q) :
  let conn' := forecast.persist_forecasts conn m base preds in
  filter (λ r, fc_machine_id r ≠ m) (forecasts conn')
    = filter (λ r, fc_machine_id r ≠ m) (forecasts conn)
  ∧ filter (λ r, fc_machine_id r = m
                 ∧ ¬ (base + timedelta_hours 1 ≤ fc_timestamp r
                      ≤ base + timedelta_hours (Z.of_nat (length preds))))
           (forecasts conn')
    = filter (λ r, fc_machine_id r = m
                   ∧ ¬ (base + timedelta_hours 1 ≤ fc_timestamp r
                        ≤ base + timedelta_hours (Z.of_nat (length preds))))
             (forecasts conn)
  ∧ raw_data conn' = raw_data conn
  ∧ optimizations conn' = optimizations conn.
Proof.
  intros conn'. subst conn'. unfold forecast.persist_forecasts; simpl.
  rewrite !filter_app.
  split; [|split; [|done]].
  - rewrite (filter_none _ (forecast.forecast_data _ _ _)).
    + rewrite app_nil_r, list_filter_filter. apply list_filter_iff.
      intros r. unfold forecast.in_horizon. tauto.
    + eapply Forall_impl; [apply forecast_data_machine|].
      intros r Hr. simpl in *. tauto.
  - rewrite (filter_none _ (forecast.forecast_data _ _ _)).
    + rewrite app_nil_r, list_filter_filter. apply list_filter_iff.
      intros r. unfold forecast.in_horizon. tauto.
    + eapply Forall_impl; [apply forecast_data_in_horizon|].
      intros r Hr. unfold forecast.in_horizon in Hr. simpl in *. tauto.
Qed.

(** ** The forecasting strategies *)

Section strategies.
Import forecast.
Context `{ForecastLibs}.

Lemma make_sequences_length (series : list Q) (window : nat) :
  length (make_sequences series window).1 = (length series - window)%nat
  ∧ length (make_sequences series window).2 = (length series - window)%nat.
Proof. unfold make_sequences; simpl. by rewrite !length_fmap, !length_seq. Qed.

(** Every window has [window] elements, and every target index is in range. *)
Lemma make_sequences_windows (series : list Q) (window : nat) :
  Forall (λ w, length w = window) (make_sequences series window).1.
Proof.
  unfold make_sequences; simpl. apply Forall_fmap, Forall_forall.
  intros i Hi%elem_of_seq. simpl. rewrite length_take, length_drop. lia.
Qed.

Lemma make_sequences_targets (series : list Q) (window : nat) (i : nat) :
  (i < length series - window)%nat →
  (make_sequences series window).2 !! i = series !! (i + window)%nat.
Proof.
  intros Hi. unfold make_sequences; simpl.
  rewrite list_lookup_fmap, lookup_seq_lt by done. simpl.
  destruct (nth_lookup_or_length series (i + window) 0%Q) as [Hn|Hn]; [|lia].
  by rewrite Hn.
Qed.

Lemma library_call_not_value_error {A : Type} available name (call : option A) :
  not_value_error (library_call available name call).
Proof. unfold library_call. by destruct available, call. Qed.

Lemma rollout_not_value_error model w steps :
  not_value_error (rollout model w steps).
Proof.
  revert w. induction steps as [|steps IH]; intros w; simpl; [done|].
  pose proof (library_call_not_value_error TF_AVAILABLE "model.predict"
                (model_predict model w)) as Hp.
  destruct (library_call _ _ _) as [p|e]; simpl; [|done].
  specialize (IH (drop 1 w ++ [p])).
  by destruct (rollout _ _ _).
Qed.

(** A completed rollout has one value per step. *)
Lemma rollout_length model w steps preds :
  rollout model w steps = Ok preds → length preds = steps.
Proof.
  revert w preds. induction steps as [|steps IH]; intros w preds; simpl.
  - by intros [= <-].
  - destruct (library_call _ _ _) as [p|e]; simpl; [|done].
    destruct (rollout _ _ _) as [ps|e] eqn:Hr; simpl; [|done].
    intros [= <-]. simpl. f_equal. by eapply IH.
Qed.

Lemma rollout_returns model w steps :
  TF_AVAILABLE = true →
  (∀ m' w', is_Some (model_predict m' w')) →
  ∃ preds, rollout model w steps = Ok preds.
Proof.
  intros Htf Hp. revert w. induction steps as [|steps IH]; intros w; simpl.
  - by eexists.
  - unfold library_call. rewrite Htf.
    destruct (Hp model w) as [p ->]. simpl.
    destruct (IH (drop 1 w ++ [p])) as [ps ->]. simpl. by eexists.
Qed.

Lemma lstm_forecast_short (series : list Q) steps epochs :
  (length series < 34)%nat →
  lstm_forecast series steps epochs
  = Raise (ValueError "Not enough data to train LSTM model.").
Proof.
  intros Hlen. unfold lstm_forecast.
  pose proof (make_sequences_length series 24) as [HX _].
  destruct (make_sequences series 24) as [X y]; simpl in *.
  rewrite decide_True; [done|lia].
Qed.

Lemma lstm_forecast_long (series : list Q) steps epochs :
  (34 ≤ length series)%nat →
  lstm_forecast series steps epochs
  = (model ← library_call TF_AVAILABLE "Sequential"
               (Sequential_fit (make_sequences series 24).1
                               (make_sequences series 24).2 epochs);
     rollout model (drop (length series - 24) series) steps).
Proof.
  intros Hlen. unfold lstm_forecast.
  pose proof (make_sequences_length series 24) as [HX _].
  destruct (make_sequences series 24) as [X y]; simpl in *.
  rewrite decide_False; [done|lia].
Qed.

Lemma lstm_forecast_Ok (series : list Q) steps epochs preds :
  lstm_forecast series steps epochs = Ok preds →
  (34 ≤ length series)%nat ∧ length preds = steps.
Proof.
  intros Hok.
  destruct (decide (length series < 34)%nat) as [Hlt|Hge].
  { by rewrite lstm_forecast_short in Hok. }
  split; [lia|].
  rewrite lstm_forecast_long in Hok by lia.
  destruct (library_call _ _ _) as [model|e]; simpl in Hok; [|done].
  by eapply rollout_length.
Qed.

Lemma lstm_forecast_returns (series : list Q) steps epochs :
  TF_AVAILABLE = true →
  (∀ X y e, is_Some (Sequential_fit X y e)) →
  (∀ m w, is_Some (model_predict m w)) →
  (34 ≤ length series)%nat →
  ∃ preds, lstm_forecast series steps epochs = Ok preds.
Proof.
  intros Htf Hfit Hp Hlen. rewrite lstm_forecast_long by done.
  unfold library_call at 1. rewrite Htf.
  destruct (Hfit (make_sequences series 24).1 (make_sequences series 24).2 epochs)
    as [model ->]. simpl.
  by apply rollout_returns.
Qed.

Lemma arima_forecast_Ok (series : list Q) steps preds :
  arima_forecast series steps = Ok preds → (30 ≤ length series)%nat.
Proof. unfold arima_forecast. case_decide; [done|lia]. Qed.
End strategies.

(** C8. Each advanced strategy raises its insufficient-data error exactly
    below its minimum history: [lstm_forecast] raises
    [ValueError("Not enough data to train LSTM model.")] if and only if the
    series has fewer than 34 values, that is when [make_sequences] yields fewer
    than 10 windows (it yields [len(series) - 24] of them, each 24 long);
    [arima_forecast] raises [ValueError("Not enough data for ARIMA model.")]
    if and only if the series has fewer than 30 values. *)
Theorem insufficient_data_thresholds
    `{forecast.ForecastLibs} (series : list Q) (steps epochs : nat) :
  (forecast.lstm_forecast series steps epochs
     = Raise (ValueError "Not enough data to train LSTM model.")
   ↔ (length series < 34)%nat)
  ∧ (length (forecast.make_sequences series 24).1 < 10
     ↔ length series < 34)%nat
  ∧ length (forecast.make_sequences series 24).1 = (length series - 24)%nat
  ∧ Forall (λ w, length w = 24%nat) (forecast.make_sequences series 24).1
  ∧ (forecast.arima_forecast series steps
       = Raise (ValueError "Not enough data for ARIMA model.")
     ↔ (length series < 30)%nat).
Proof.
  pose proof (make_sequences_length series 24) as [HX _].
  repeat split.
  - intros Hraise.
    destruct (decide (length series < 34)%nat) as [|Hge]; [done|exfalso].
    rewrite lstm_forecast_long in Hraise by lia.
    pose proof (library_call_not_value_error forecast.TF_AVAILABLE "Sequential"
      (forecast.Sequential_fit (forecast.make_sequences series 24).1
         (forecast.make_sequences series 24).2 epochs)) as Hlib.
    destruct (forecast.library_call _ _ _) as [model|e]; simpl in Hraise.
    + pose proof (rollout_not_value_error model
        (drop (length series - 24) series) steps) as Hroll.
      by rewrite Hraise in Hroll.
    + by simplify_eq.
  - apply lstm_forecast_short.
  - lia.
  - lia.
  - done.
  - apply make_sequences_windows.
  - unfold forecast.arima_forecast. case_decide; [done|].
    intros Hraise.
    pose proof (library_call_not_value_error forecast.SM_AVAILABLE "ARIMA"
      (forecast.ARIMA_fit_forecast series steps)) as Hlib.
    by rewrite Hraise in Hlib.
  - intros Hlen. unfold forecast.arima_forecast. by rewrite decide_True.
Qed.

(** ** Choice of strategy and fallback *)

Section fallback.
Import forecast.
Context `{ForecastLibs}.

Lemma forecast_machine_naive (series : list Z) (v : Z) :
  last series = Some v →
  naive_forecast series = Ok (replicate 24 (inject_Z v)).
Proof. unfold naive_forecast. by intros ->. Qed.

(** The forecast of a machine with at least one observation: the value of
    the attempted strategy when it returns, the naive forecast otherwise. *)
Lemma forecast_machine_cases (series : list Z) (v : Z) :
  last series = Some v →
  match try_strategy series with
  | Ok sp => forecast_machine series = Ok sp
  | Raise _ => forecast_machine series = Ok (NAIVE, replicate 24 (inject_Z v))
  end.
Proof.
  intros Hlast. unfold forecast_machine.
  destruct (try_strategy series) as [sp|e]; simpl; [done|].
  by rewrite (forecast_machine_naive _ v).
Qed.

Lemma forecast_machine_returns (series : list Z) (v : Z) :
  last series = Some v → ∃ sp, forecast_machine series = Ok sp.
Proof.
  intros Hlast. pose proof (forecast_machine_cases series v Hlast) as Hc.
  destruct (try_strategy series); eauto.
Qed.
End fallback.

(** C3 (amended). The strategy attempted for a machine is fixed by the two
    capability flags, not by the length of its history. With TensorFlow
    available the LSTM strategy is attempted: when it returns, its values are
    the forecast, there are exactly 24 of them and the history has at least 34
    values (and it does return for such a history when the library raises
    nothing); when it raises, in particular for every history shorter than 34,
    also one of length 30 to 33, the naive forecast is used. Without
    TensorFlow but with statsmodels the ARIMA strategy is attempted in the
    same way, with threshold 30. With neither library the naive forecast is
    used. *)
Theorem strategy_by_capability
    `{forecast.ForecastLibs} (series : list Z) (v : Z)
    (Hlast : last series = Some v) :
  let series' := inject_Z <$> series in
  let naive := Ok (forecast.NAIVE, replicate 24 (inject_Z v)) in
  (forecast.TF_AVAILABLE = true →
     (∀ preds, forecast.lstm_forecast series' 24 10 = Ok preds →
        forecast.forecast_machine series = Ok (forecast.LSTM, preds)
        ∧ (34 ≤ length series)%nat ∧ length preds = 24%nat)
     ∧ (∀ e, forecast.lstm_forecast series' 24 10 = Raise e →
          forecast.forecast_machine series = naive)
     ∧ ((length series < 34)%nat → forecast.forecast_machine series = naive)
     ∧ ((34 ≤ length series)%nat →
        (∀ X y e, is_Some (forecast.Sequential_fit X y e)) →
        (∀ m w, is_Some (forecast.model_predict m w)) →
        ∃ preds, forecast.forecast_machine series = Ok (forecast.LSTM, preds)
                 ∧ length preds = 24%nat))
  ∧ (forecast.TF_AVAILABLE = false → forecast.SM_AVAILABLE = true →
     (∀ preds, forecast.arima_forecast series' 24 = Ok preds →
        forecast.forecast_machine series = Ok (forecast.ARIMA, preds)
        ∧ (30 ≤ length series)%nat)
     ∧ (∀ e, forecast.arima_forecast series' 24 = Raise e →
          forecast.forecast_machine series = naive)
     ∧ ((length series < 30)%nat → forecast.forecast_machine series = naive)
     ∧ ((30 ≤ length series)%nat →
        (∀ s n, is_Some (forecast.ARIMA_fit_forecast s n)) →
        ∃ preds, forecast.forecast_machine series = Ok (forecast.ARIMA, preds)))
  ∧ (forecast.TF_AVAILABLE = false → forecast.SM_AVAILABLE = false →
     forecast.forecast_machine series = naive).
Proof.
  intros series' naive. subst naive.
  pose proof (forecast_machine_cases series v Hlast) as Hcases.
  assert (length series' = length series) as Hlen by apply length_fmap.
  unfold forecast.try_strategy in Hcases. fold series' in Hcases.
  split; [|split].
  - intros Htf. rewrite Htf in Hcases.
    assert (∀ e, forecast.lstm_forecast series' 24 10 = Raise e →
      forecast.forecast_machine series
      = Ok (forecast.NAIVE, replicate 24 (inject_Z v))) as Hraise.
    { intros e He. by rewrite He in Hcases. }
    assert (∀ preds, forecast.lstm_forecast series' 24 10 = Ok preds →
      forecast.forecast_machine series = Ok (forecast.LSTM, preds)
      ∧ (34 ≤ length series)%nat ∧ length preds = 24%nat) as Hok.
    { intros preds Hp. rewrite Hp in Hcases. split; [done|].
      apply lstm_forecast_Ok in Hp. by rewrite <- Hlen. }
    split; [exact Hok|]. split; [exact Hraise|]. split.
    + intros Hshort. eapply Hraise, lstm_forecast_short. by rewrite Hlen.
    + intros Hlong Hfit Hpred.
      destruct (lstm_forecast_returns series' 24 10) as [preds Hp]; try done.
      { by rewrite Hlen. }
      exists preds. destruct (Hok preds Hp) as (? & ? & ?). done.
  - intros Htf Hsm. rewrite Htf, Hsm in Hcases.
    assert (∀ e, forecast.arima_forecast series' 24 = Raise e →
      forecast.forecast_machine series
      = Ok (forecast.NAIVE, replicate 24 (inject_Z v))) as Hraise.
    { intros e He. by rewrite He in Hcases. }
    assert (∀ preds, forecast.arima_forecast series' 24 = Ok preds →
      forecast.forecast_machine series = Ok (forecast.ARIMA, preds)
      ∧ (30 ≤ length series)%nat) as Hok.
    { intros preds Hp. rewrite Hp in Hcases. split; [done|].
      apply arima_forecast_Ok in Hp. by rewrite <- Hlen. }
    split; [exact Hok|]. split; [exact Hraise|]. split.
    + intros Hshort. eapply Hraise.
      unfold forecast.arima_forecast. rewrite decide_True; [done|]. by rewrite Hlen.
    + intros Hlong Hfit.
      assert (∃ preds, forecast.arima_forecast series' 24 = Ok preds) as [preds Hp].
      { unfold forecast.arima_forecast, forecast.library_call.
        rewrite decide_False by (rewrite Hlen; lia). rewrite Hsm.
        destruct (Hfit series' 24%nat) as [preds ->]. by eexists. }
      exists preds. by apply Hok.
  - intros Htf Hsm. rewrite Htf, Hsm in Hcases.
    rewrite (forecast_machine_naive _ v Hlast) in Hcases. done.
Qed.

Lemma strategy_by_capability_witness :
  last (replicate 34 50) = Some 50
  ∧ ∃ preds,
      forecast.forecast_machine (H := steady_libs) (replicate 34 50)
      = Ok (forecast.LSTM, preds) ∧ length preds = 24%nat.
Proof.
  split; [reflexivity|].
  apply (strategy_by_capability (H := steady_libs) (replicate 34 50) 50 eq_refl);
    simpl; eauto; lia.
Defined.

(** C3 as stated fails: with both libraries available, a history of 30 values
    is forecast by the naive strategy, not by ARIMA. *)
Lemma strategy_by_length_counterexample :
  forecast.forecast_machine (H := steady_libs) (replicate 30 50)
  = Ok (forecast.NAIVE, replicate 24 (inject_Z 50))
  ∧ ¬ (∀ (L : forecast.ForecastLibs) (series : list Z) s preds,
         forecast.forecast_machine series = Ok (s, preds) →
         ((34 ≤ length series)%nat → s = forecast.LSTM ∧ length preds = 24%nat)
         ∧ ((30 ≤ length series < 34)%nat → s = forecast.ARIMA)
         ∧ ((length series < 30)%nat → s = forecast.NAIVE)).
Proof.
  split; [reflexivity|].
  intros Hclaim.
  destruct (Hclaim steady_libs (replicate 30 50) forecast.NAIVE
              (replicate 24 (inject_Z 50)) eq_refl) as (_ & Harima & _).
  assert (forecast.NAIVE = forecast.ARIMA) as Heq; [|discriminate Heq].
  apply Harima. simpl. lia.
Qed.

(** ** The batch over all machines *)

Lemma result_bind_Ok {A B : Type} (a : A) (k : A → result B) : Ok a ≫= k = k a.
Proof. done. Qed.

Lemma for_each_cons {A S : Type} (x : A) (l : list A) (body : S → A → result S) (s : S) :
  for_each (x :: l) body s = body s x ≫= for_each l body.
Proof. done. Qed.

Section unique_facts.
Context {A : Type} `{EqDecision A}.

Lemma elem_of_unique (l : list A) (x : A) : x ∈ unique l ↔ x ∈ l.
Proof.
  induction l as [|a l IH]; simpl; [done|].
  rewrite !elem_of_cons, list_elem_of_filter, IH.
  destruct (decide (x = a)); tauto.
Qed.

Lemma NoDup_unique (l : list A) : NoDup (unique l).
Proof.
  induction l as [|a l IH]; simpl; constructor.
  - rewrite list_elem_of_filter. tauto.
  - by apply NoDup_filter.
Qed.
End unique_facts.

Section batch.
Import forecast.
Context `{ForecastLibs}.

(** A machine of the batch has at least one observation. *)
Lemma machine_series_last (df : list Observation) (m : string) :
  m ∈ obs_machine_id <$> df → is_Some (last (machine_series df m)).
Proof.
  intros (o & -> & Ho)%list_elem_of_fmap.
  apply last_is_Some. intros Hnil.
  assert (length (machine_series df (obs_machine_id o)) = 0%nat) as Hlen
    by by rewrite Hnil.
  unfold machine_series, sort_values_timestamp in Hlen.
  rewrite length_fmap, merge_sort_Permutation in Hlen.
  apply length_zero_iff_nil in Hlen.
  by apply (filter_nil_not_elem_of _ _ o) in Hlen.
Qed.

Lemma persist_forecasts_other_machine conn m m' now preds :
  m' ≠ m →
  filter (λ r, fc_machine_id r = m') (forecasts (persist_forecasts conn m now preds))
  = filter (λ r, fc_machine_id r = m') (forecasts conn).
Proof.
  intros Hne. unfold persist_forecasts; simpl. rewrite filter_app.
  rewrite (filter_none _ (forecast_data _ _ _)).
  - rewrite app_nil_r, list_filter_filter. apply list_filter_iff.
    intros r. unfold in_horizon. split; [by intros [? _]|].
    intros Hr. split; [done|]. intros [Hm _]. congruence.
  - eapply Forall_impl; [apply forecast_data_machine|].
    intros r Hr. simpl in *. congruence.
Qed.

Lemma persist_forecasts_same_machine conn m now preds :
  filter (λ r, fc_machine_id r = m) (forecasts (persist_forecasts conn m now preds))
  = filter (λ r, ¬ in_horizon m now (length preds) r) (filter (λ r, fc_machine_id r = m) (forecasts conn))
    ++ forecast_data m now preds.
Proof.
  unfold persist_forecasts; simpl. rewrite filter_app.
  rewrite (filter_all _ (forecast_data _ _ _)) by apply forecast_data_machine.
  f_equal. rewrite !list_filter_filter. apply list_filter_iff. tauto.
Qed.

Lemma forecast_step_Ok df now conn m sp :
  forecast_machine (machine_series df m) = Ok sp →
  forecast_step df now conn m = Ok (persist_forecasts conn m now sp.2).
Proof. unfold forecast_step. by intros ->. Qed.

Lemma for_each_forecast_step df now ms conn0 conn :
  NoDup ms →
  (∀ m, m ∈ ms → is_Some (last (machine_series df m))) →
  (∀ m, m ∈ ms → filter (λ r, fc_machine_id r = m) (forecasts conn) = filter (λ r, fc_machine_id r = m) (forecasts conn0)) →
  ∃ conn', for_each ms (forecast_step df now) conn = Ok conn'
    ∧ (∀ m, m ∈ ms →
         ∃ sp, forecast_machine (machine_series df m) = Ok sp
           ∧ filter (λ r, fc_machine_id r = m) (forecasts conn')
             = filter (λ r, fc_machine_id r = m) (forecasts (persist_forecasts conn0 m now sp.2)))
    ∧ (∀ m, m ∉ ms → filter (λ r, fc_machine_id r = m) (forecasts conn') = filter (λ r, fc_machine_id r = m) (forecasts conn)).
Proof.
  intros Hnd. revert conn.
  induction Hnd as [|m ms Hm Hnd IH]; intros conn Hlast Hsame.
  { eexists; split; [done|]. split; [by intros ? ?%elem_of_nil|done]. }
  rewrite for_each_cons.
  destruct (Hlast m) as [v Hv]; [left|].
  destruct (forecast_machine_returns _ v Hv) as [sp Hsp].
  rewrite (forecast_step_Ok _ _ _ _ _ Hsp), result_bind_Ok.
  destruct (IH (persist_forecasts conn m now sp.2)) as (conn' & Hrun & Hin & Hout).
  { intros m' Hm'. apply Hlast. by right. }
  { intros m' Hm'. rewrite persist_forecasts_other_machine by set_solver.
    apply Hsame. by right. }
  exists conn'. split; [done|]. split.
  - intros m' [->|Hm']%elem_of_cons; [|by apply Hin].
    exists sp. split; [done|].
    rewrite Hout by done.
    rewrite !persist_forecasts_same_machine, Hsame; [done|left].
  - intros m' Hm'%not_elem_of_cons. destruct Hm' as [Hne Hm'].
    rewrite Hout by done. by apply persist_forecasts_other_machine.
Qed.

(** The batch returns, and the rows of each of its machines are those written
    from that machine's own forecast. *)
Lemma main_per_machine conn :
  ∃ conn', main conn = Ok conn'
    ∧ ∀ m, m ∈ obs_machine_id <$> raw_data conn →
        ∃ sp, forecast_machine (machine_series (raw_data conn) m) = Ok sp
          ∧ filter (λ r, fc_machine_id r = m) (forecasts conn')
            = filter (λ r, fc_machine_id r = m)
                (forecasts (persist_forecasts conn m
                              (max_timestamp (raw_data conn)) sp.2)).
Proof.
  unfold main, load_data.
  destruct (raw_data conn) as [|o df'] eqn:Hdf.
  { exists conn. split; [done|]. by intros m ?%elem_of_nil. }
  rewrite <- Hdf. set (df := raw_data conn). set (now := max_timestamp df).
  destruct (for_each_forecast_step df now (unique (obs_machine_id <$> df)) conn conn)
    as (conn' & Hrun & Hin & _).
  { apply NoDup_unique. }
  { intros m Hm. apply machine_series_last. by apply elem_of_unique. }
  { done. }
  exists conn'. split; [done|].
  intros m Hm. apply Hin. by apply elem_of_unique.
Qed.
End batch.

(** ** The series of a machine *)

Section series_facts.
Import forecast.

Global Instance obs_before_trans : Transitive obs_before.
Proof. intros a b c. unfold obs_before. lia. Qed.

Global Instance obs_before_total : Total obs_before.
Proof. intros a b. unfold obs_before. lia. Qed.

Lemma StronglySorted_last {A : Type} (R : relation A) `{!Reflexive R}
    (l : list A) (x : A) :
  StronglySorted R l → last l = Some x → ∀ y, y ∈ l → R y x.
Proof.
  induction 1 as [|a l Hl IH Ha]; [done|].
  intros Hlast y Hy.
  destruct l as [|b l'].
  - simpl in Hlast. injection Hlast as <-.
    apply list_elem_of_singleton in Hy as ->. reflexivity.
  - change (last (b :: l') = Some x) in Hlast.
    apply elem_of_cons in Hy as [->|Hy]; [|by apply IH].
    rewrite Forall_forall in Ha. apply Ha.
    apply last_Some_elem_of in Hlast. done.
Qed.
End series_facts.

(** The series of a machine is the demand column of the machine's rows of
    [raw_data], rearranged so that timestamps never decrease; its last row is
    an observation that none of the machine's observations is later than.
    Rows of equal timestamp may come in any order ([sort_values] with its
    default quicksort does not fix one); the statement does not depend on
    it. *)
Lemma machine_series_rows (df : list Observation) (m : string) :
  m ∈ obs_machine_id <$> df →
  ∃ rows o,
    rows ≡ₚ filter (λ o, obs_machine_id o = m) df
    ∧ StronglySorted
        (λ a b, to_instant (obs_timestamp a) ≤ to_instant (obs_timestamp b)) rows
    ∧ forecast.machine_series df m = obs_production_demand <$> rows
    ∧ last rows = Some o
    ∧ o ∈ df
    ∧ obs_machine_id o = m
    ∧ ∀ o', o' ∈ df → obs_machine_id o' = m →
        to_instant (obs_timestamp o') ≤ to_instant (obs_timestamp o).
Proof.
  intros Hm.
  set (rows := merge_sort forecast.obs_before (filter (λ o, obs_machine_id o = m) df)).
  assert (rows ≡ₚ filter (λ o, obs_machine_id o = m) df) as Hperm
    by apply merge_sort_Permutation.
  assert (StronglySorted forecast.obs_before rows) as Hsorted
    by (apply StronglySorted_merge_sort; apply _).
  destruct (machine_series_last df m Hm) as [v Hv].
  unfold forecast.machine_series, forecast.sort_values_timestamp in Hv.
  fold rows in Hv. rewrite fmap_last in Hv.
  destruct (last rows) as [o|] eqn:Hlast; [|done].
  assert (o ∈ filter (λ o, obs_machine_id o = m) df) as Ho.
  { rewrite <- Hperm. by apply last_Some_elem_of. }
  apply list_elem_of_filter in Ho as [Hom Ho].
  exists rows, o. split; [done|]. split; [exact Hsorted|]. split; [done|].
  split; [done|]. split; [done|]. split; [done|].
  intros o' Ho' Hm'.
  assert (Reflexive forecast.obs_before) as Hrefl
    by (intros a; unfold forecast.obs_before; lia).
  apply (StronglySorted_last forecast.obs_before rows o); [done|done|].
  rewrite Hperm. by apply list_elem_of_filter.
Qed.

(** The rows of a machine after its forecast was persisted: its old rows
    outside the horizon, then one new row per prediction. *)
Lemma persist_forecasts_machine_rows (conn : DB) (m : string) (now : Z)
    (preds : list Q) :
  filter (λ r, fc_machine_id r = m)
         (forecasts (forecast.persist_forecasts conn m now preds))
  = filter (λ r, fc_machine_id r = m
                 ∧ ¬ (now + timedelta_hours 1 ≤ fc_timestamp r
                      ≤ now + timedelta_hours (Z.of_nat (length preds))))
           (forecasts conn)
    ++ imap (λ i p, {| fc_timestamp := now + timedelta_hours (Z.of_nat i + 1);
                       fc_machine_id := m;
                       fc_predicted_demand := p |}) preds.
Proof.
  unfold forecast.persist_forecasts. simpl.
  rewrite filter_app. f_equal.
  - rewrite list_filter_filter. apply list_filter_iff.
    intros r. unfold forecast.in_horizon. tauto.
  - apply filter_all, forecast_data_machine.
Qed.

(** C5. The batch always completes, whatever the strategies raise. For every
    machine of the batch, the series it is forecast from is the demand column
    of its own rows of [raw_data] in timestamp order, and the rows it owns in
    the forecast table afterwards are its old rows outside the horizon
    followed by one new row per predicted value, at [now + 1h], [now + 2h],
    ... When the machine's attempted strategy raises, the values are the
    naive ones: exactly 24, each the demand of an observation of the machine
    that none of its observations is later than, and the 24 rows carrying
    that value are in the table. What the libraries do on the series of other
    machines does not matter: in any other environment in which the
    machine's own forecast is the same, the batch completes as well and
    leaves the same rows for that machine. *)
Theorem strategy_failure_isolated (L : forecast.ForecastLibs) (conn : DB) :
  let df := raw_data conn in
  let now := forecast.max_timestamp df in
  ∃ conn', forecast.main conn = Ok conn'
    ∧ (∀ m, m ∈ obs_machine_id <$> df →
        ∃ rows o s preds,
          rows ≡ₚ filter (λ o, obs_machine_id o = m) df
          ∧ StronglySorted
              (λ a b, to_instant (obs_timestamp a) ≤ to_instant (obs_timestamp b)) rows
          ∧ last rows = Some o
          ∧ o ∈ df
          ∧ obs_machine_id o = m
          ∧ (∀ o', o' ∈ df → obs_machine_id o' = m →
               to_instant (obs_timestamp o') ≤ to_instant (obs_timestamp o))
          ∧ forecast.machine_series df m = obs_production_demand <$> rows
          ∧ forecast.forecast_machine (obs_production_demand <$> rows) = Ok (s, preds)
          ∧ (∀ e, forecast.try_strategy (obs_production_demand <$> rows) = Raise e →
               s = forecast.NAIVE
               ∧ preds = replicate 24 (inject_Z (obs_production_demand o))
               ∧ length preds = 24%nat
               ∧ Forall (λ p, p = inject_Z (obs_production_demand o)) preds
               ∧ ∀ i : nat, (i < 24)%nat →
                   {| fc_timestamp := now + timedelta_hours (Z.of_nat i + 1);
                      fc_machine_id := m;
                      fc_predicted_demand := inject_Z (obs_production_demand o) |}
                   ∈ forecasts conn')
          ∧ filter (λ r, fc_machine_id r = m) (forecasts conn')
            = filter (λ r, fc_machine_id r = m
                           ∧ ¬ (now + timedelta_hours 1 ≤ fc_timestamp r
                                ≤ now + timedelta_hours (Z.of_nat (length preds))))
                     (forecasts conn)
              ++ imap (λ i p,
                   {| fc_timestamp := now + timedelta_hours (Z.of_nat i + 1);
                      fc_machine_id := m;
                      fc_predicted_demand := p |}) preds)
    ∧ (∀ (L' : forecast.ForecastLibs) m, m ∈ obs_machine_id <$> df →
         forecast.forecast_machine (H := L') (forecast.machine_series df m)
         = forecast.forecast_machine (H := L) (forecast.machine_series df m) →
         ∃ conn'', forecast.main (H := L') conn = Ok conn''
           ∧ filter (λ r, fc_machine_id r = m) (forecasts conn'')
             = filter (λ r, fc_machine_id r = m) (forecasts conn')).
Proof.
  intros df now. subst df now.
  destruct (main_per_machine (H := L) conn) as (conn' & Hrun & Hin).
  exists conn'. split; [done|]. split.
  - intros m Hm.
    destruct (Hin m Hm) as ([s preds] & Hsp & Hrows).
    destruct (machine_series_rows (raw_data conn) m Hm)
      as (rows & o & Hperm & Hsorted & Hseries & Hlast & Ho & Hom & Hmax).
    rewrite persist_forecasts_machine_rows in Hrows. simpl in Hrows.
    rewrite Hseries in Hsp.
    exists rows, o, s, preds. repeat (split; [done|]).
    split; [|done].
    intros e He.
    assert (last (obs_production_demand <$> rows) = Some (obs_production_demand o))
      as Hv by by rewrite fmap_last, Hlast.
    pose proof (forecast_machine_cases _ _ Hv) as Hcases.
    rewrite He, Hsp in Hcases.
    assert (s = forecast.NAIVE
            ∧ preds = replicate 24 (inject_Z (obs_production_demand o))) as [-> ->]
      by (split; congruence).
    split; [done|]. split; [done|]. split; [apply length_replicate|].
    split; [apply Forall_forall; by intros p [-> _]%elem_of_replicate|].
    intros i Hi.
    assert ({| fc_timestamp :=
                 forecast.max_timestamp (raw_data conn)
                 + timedelta_hours (Z.of_nat i + 1);
               fc_machine_id := m;
               fc_predicted_demand := inject_Z (obs_production_demand o) |}
            ∈ filter (λ r, fc_machine_id r = m) (forecasts conn')) as Hrow.
    { rewrite Hrows. apply elem_of_app. right.
      apply list_elem_of_lookup. exists i.
      rewrite list_lookup_imap, lookup_replicate_2 by done. done. }
    by apply list_elem_of_filter in Hrow as [_ Hrow].
  - intros L' m Hm Hsame.
    destruct (main_per_machine (H := L') conn) as (conn'' & Hrun' & Hin').
    exists conn''. split; [done|].
    destruct (Hin m Hm) as (sp & Hsp & ->).
    destruct (Hin' m Hm) as (sp' & Hsp' & ->).
    rewrite Hsame, Hsp in Hsp'. by injection Hsp' as <-.
Qed.

(** A run of the batch: TensorFlow is installed but training fails, so both
    machines get the naive forecast, 24 rows each. *)
Example batch_with_failing_training :
  ∃ conn', forecast.main (H := failing_libs) gappy_plant = Ok conn'
    ∧ length (forecasts conn') = 48%nat
    ∧ forecasts conn' !! 0%nat = Some (mk_ForecastPoint 1705280400 "A" 50)
    ∧ filter (λ r, fc_machine_id r = "B") (forecasts conn')
      = forecast.forecast_data "B" 1705276800 (replicate 24 60%Q).
Proof. eexists. split; [vm_compute; reflexivity|]. by vm_compute. Qed.

(** ** The linear program built by [optimize_all] *)

Section model.
Import optimize.
Implicit Types (s : Solver) (specs_df : list MachineSpec)
  (vars : list (string * Z)) (machines : list string) (timestamps : list Z).

Lemma define_variables_spec specs_df vars s s' :
  define_variables specs_df vars s = Ok s' →
  constraints s' = constraints s
  ∧ objective s' = objective s
  ∧ (∀ v, v ∈ variables s → v ∈ variables s')
  ∧ (∀ var, var ∈ vars →
       ∃ spec, loc specs_df var.1 = Ok spec
               ∧ (var, (0%Q, max_capacity spec)) ∈ variables s').
Proof.
  unfold define_variables. revert s.
  induction vars as [|var vars IH]; intros s Hrun.
  { injection Hrun as <-. repeat split; try done. by intros ? ?%elem_of_nil. }
  rewrite for_each_cons in Hrun.
  destruct (loc specs_df var.1) as [spec|e] eqn:Hloc; [|done].
  simpl in Hrun. apply IH in Hrun as (Hc & Ho & Hold & Hnew).
  split; [done|]. split; [done|]. split.
  - intros v Hv. apply Hold. simpl. apply elem_of_app. by left.
  - intros var' [->|Hin]%elem_of_cons; [|by apply Hnew].
    exists spec. split; [done|].
    apply Hold. simpl. apply elem_of_app. right. by left.
Qed.

Lemma add_plant_constraints_spec specs_df machines timestamps s :
  let s' := add_plant_constraints specs_df machines timestamps s in
  variables s' = variables s
  ∧ objective s' = objective s
  ∧ constraints s'
    = constraints s
      ++ ((λ ts, {| terms := (λ m, (1%Q, (m, ts))) <$> machines;
                    upper := plant_capacity_limit specs_df |}) <$> timestamps).
Proof.
  unfold add_plant_constraints. revert s.
  induction timestamps as [|ts timestamps IH]; intros s; simpl.
  { by rewrite app_nil_r. }
  destruct (IH (Add s {| terms := (λ m, (1%Q, (m, ts))) <$> machines;
                         upper := plant_capacity_limit specs_df |}))
    as (Hv & Ho & Hc).
  split; [done|]. split; [done|].
  rewrite Hc. simpl. by rewrite <- app_assoc.
Qed.

Lemma add_demand_constraints_spec pred_map vars s :
  let s' := add_demand_constraints pred_map vars s in
  variables s' = variables s
  ∧ objective s' = objective s
  ∧ constraints s'
    = constraints s
      ++ ((λ var, {| terms := [(1%Q, var)]; upper := pred_get pred_map var |})
            <$> vars).
Proof.
  unfold add_demand_constraints. revert s.
  induction vars as [|var vars IH]; intros s; simpl.
  { by rewrite app_nil_r. }
  destruct (IH (Add s {| terms := [(1%Q, var)]; upper := pred_get pred_map var |}))
    as (Hv & Ho & Hc).
  split; [done|]. split; [done|].
  rewrite Hc. simpl. by rewrite <- app_assoc.
Qed.

Lemma define_objective_spec specs_df energy_cost_map vars s s' :
  define_objective specs_df energy_cost_map vars s = Ok s' →
  variables s' = variables s ∧ constraints s' = constraints s.
Proof.
  unfold define_objective. revert s.
  induction vars as [|var vars IH]; intros s Hrun.
  { by injection Hrun as <-. }
  rewrite for_each_cons in Hrun.
  destruct (loc specs_df var.1) as [spec|e]; [|done].
  simpl in Hrun. by apply IH in Hrun as [-> ->].
Qed.

(** The model handed to [Solve]: a bounded variable per pair, a plant
    constraint per timestamp, a demand constraint per pair. *)
Lemma build_model_spec specs_df energy_cost_map pred_map machines timestamps s s' :
  build_model specs_df energy_cost_map pred_map machines timestamps s = Ok s' →
  (∀ var, var ∈ pairs machines timestamps →
     ∃ spec, loc specs_df var.1 = Ok spec
             ∧ (var, (0%Q, max_capacity spec)) ∈ variables s')
  ∧ (∀ ts, ts ∈ timestamps →
       {| terms := (λ m, (1%Q, (m, ts))) <$> machines;
          upper := plant_capacity_limit specs_df |} ∈ constraints s')
  ∧ (∀ var, var ∈ pairs machines timestamps →
       {| terms := [(1%Q, var)]; upper := pred_get pred_map var |}
       ∈ constraints s').
Proof.
  unfold build_model. intros Hrun.
  destruct (define_variables specs_df (pairs machines timestamps) s)
    as [s1|e] eqn:Hvars; [|done].
  simpl in Hrun.
  apply define_variables_spec in Hvars as (_ & _ & _ & Hnew).
  destruct (define_objective _ _ _ _) as [s2|e] eqn:Hobj; [|done].
  simpl in Hrun. injection Hrun as <-. simpl.
  apply define_objective_spec in Hobj as [Hv Hc].
  destruct (add_demand_constraints_spec pred_map (pairs machines timestamps)
    (add_plant_constraints specs_df machines timestamps s1)) as (Hv2 & _ & Hc2).
  destruct (add_plant_constraints_spec specs_df machines timestamps s1)
    as (Hv1 & _ & Hc1).
  rewrite Hv, Hv2, Hv1. rewrite Hc, Hc2, Hc1.
  split; [done|]. split.
  - intros ts Hts. apply elem_of_app. left. apply elem_of_app. right.
    apply list_elem_of_fmap. by exists ts.
  - intros var Hvar. apply elem_of_app. right.
    apply list_elem_of_fmap. by exists var.
Qed.

(** The rows appended by the result loop, one per pair, in order. *)
Lemma build_results_spec specs_df energy_cost_map pred_map solution_value vars rows :
  build_results specs_df energy_cost_map pred_map solution_value vars = Ok rows →
  Forall2 (λ var row,
      result_row specs_df energy_cost_map pred_map solution_value var = Ok row)
    vars rows.
Proof.
  unfold build_results.
  assert (∀ acc rows',
    for_each vars (λ results var,
      row ← result_row specs_df energy_cost_map pred_map solution_value var;
      Ok (results ++ [row])) acc = Ok rows' →
    ∃ new, rows' = acc ++ new
      ∧ Forall2 (λ var row,
          result_row specs_df energy_cost_map pred_map solution_value var = Ok row)
        vars new) as Hgen.
  { induction vars as [|var vars IH]; intros acc rows' Hrun.
    - injection Hrun as <-. exists []. by rewrite app_nil_r.
    - rewrite for_each_cons in Hrun.
      destruct (result_row _ _ _ _ var) as [row|e] eqn:Hrow; [|done].
      simpl in Hrun. apply IH in Hrun as (new & -> & Hnew).
      exists (row :: new). rewrite <- app_assoc. split; [done|].
      by constructor. }
  intros Hrun. apply Hgen in Hrun as (new & -> & Hnew). done.
Qed.

Lemma result_row_spec specs_df energy_cost_map pred_map solution_value var row :
  result_row specs_df energy_cost_map pred_map solution_value var = Ok row →
  ∃ spec, loc specs_df var.1 = Ok spec
    ∧ opt_machine_id row = var.1
    ∧ opt_timestamp row = var.2
    ∧ opt_hour row = hour_of var.2
    ∧ optimized_production row = solution_value var
    ∧ baseline_production row
      = py_int (py_min (pred_get pred_map var) (max_capacity spec)).
Proof.
  unfold result_row. destruct (loc specs_df var.1) as [spec|e]; [|done].
  simpl. intros [= <-]. by exists spec.
Qed.
End model.

(** ** Pairs, sums and the rows of one timestamp *)

Section pairs_facts.
Import optimize.

Lemma pairs_cons m machines timestamps :
  pairs (m :: machines) timestamps
  = ((λ ts, (m, ts)) <$> timestamps) ++ pairs machines timestamps.
Proof.
  unfold pairs. rewrite bind_cons.
  assert ((timestamps ≫= λ ts, [(m, ts)]) = (λ ts, (m, ts)) <$> timestamps) as ->;
    [|done].
  induction timestamps as [|ts timestamps IH]; [done|].
  rewrite bind_cons, IH. done.
Qed.

Lemma elem_of_pairs m ts machines timestamps :
  (m, ts) ∈ pairs machines timestamps ↔ m ∈ machines ∧ ts ∈ timestamps.
Proof.
  induction machines as [|m' machines IH].
  { unfold pairs. simpl. rewrite !elem_of_nil. tauto. }
  rewrite pairs_cons, elem_of_app, IH, list_elem_of_fmap, elem_of_cons.
  split.
  - intros [(ts' & [= -> ->] & Hts)|[? ?]]; auto.
  - intros [[->|Hm] Hts]; [left; by exists ts|by right].
Qed.

Lemma NoDup_pairs machines timestamps :
  NoDup machines → NoDup timestamps → NoDup (pairs machines timestamps).
Proof.
  intros Hm Hts. induction Hm as [|m machines Hnotin Hm IH].
  { constructor. }
  rewrite pairs_cons. apply NoDup_app. split; [|split; [|done]].
  - apply NoDup_fmap_2; [|done]. by intros ?? [= ->].
  - intros [m' ts] (ts' & [= -> ->] & _)%list_elem_of_fmap Hin.
    apply elem_of_pairs in Hin as [? _]. done.
Qed.

Lemma filter_timestamp_row (m : string) (ts : Z) timestamps :
  NoDup timestamps → ts ∈ timestamps →
  filter (λ var : string * Z, var.2 = ts) ((λ t, (m, t)) <$> timestamps)
  = [(m, ts)].
Proof.
  induction 1 as [|t timestamps Hnotin Hnd IH]; [by intros ?%elem_of_nil|].
  intros Hin. rewrite fmap_cons.
  destruct (decide (t = ts)) as [->|Hne].
  - rewrite filter_cons_True by done. f_equal.
    apply filter_none, Forall_fmap, Forall_forall.
    intros t Ht. simpl. congruence.
  - rewrite filter_cons_False by done.
    apply IH. apply elem_of_cons in Hin as [?|?]; [congruence|done].
Qed.

(** The variables of one timestamp: one per machine. *)
Lemma pairs_filter_timestamp machines timestamps (ts : Z) :
  NoDup timestamps → ts ∈ timestamps →
  filter (λ var : string * Z, var.2 = ts) (pairs machines timestamps)
  = (λ m, (m, ts)) <$> machines.
Proof.
  intros Hnd Hin. induction machines as [|m machines IH]; [done|].
  rewrite pairs_cons, filter_app, IH, filter_timestamp_row by done. done.
Qed.

Lemma Qsum_ext {A : Type} (f g : A → Q) (l : list A) :
  (∀ x, x ∈ l → (f x == g x)%Q) → (Qsum (f <$> l) == Qsum (g <$> l))%Q.
Proof.
  induction l as [|x l IH]; intros Hfg; simpl; [reflexivity|].
  unfold Qsum in *. simpl. rewrite Hfg by left. rewrite IH; [reflexivity|].
  intros y Hy. apply Hfg. by right.
Qed.

(** The result rows of one timestamp carry the solution values of that
    timestamp's variables. *)
Lemma rows_filter_timestamp (solution_value : string * Z → Q)
    (vars : list (string * Z)) (rows : list OptimizationResult) (ts : Z) :
  Forall2 (λ var row, opt_timestamp row = var.2
                      ∧ optimized_production row = solution_value var) vars rows →
  optimized_production <$> filter (λ r, opt_timestamp r = ts) rows
  = solution_value <$> filter (λ var, var.2 = ts) vars.
Proof.
  induction 1 as [|var row vars rows [Hts Hval] _ IH]; [done|].
  destruct (decide (var.2 = ts)) as [Heq|Hne].
  - rewrite !filter_cons_True by congruence. rewrite !fmap_cons. congruence.
  - rewrite !filter_cons_False by congruence. done.
Qed.

Lemma NoDup_sorted_timestamps forecast_df : NoDup (sorted_timestamps forecast_df).
Proof.
  unfold sorted_timestamps. rewrite merge_sort_Permutation. apply NoDup_unique.
Qed.

Lemma NoDup_sorted_machines forecast_df : NoDup (sorted_machines forecast_df).
Proof.
  unfold sorted_machines. rewrite merge_sort_Permutation. apply NoDup_unique.
Qed.

Lemma elem_of_sorted_timestamps forecast_df ts :
  ts ∈ sorted_timestamps forecast_df ↔ ts ∈ fc_timestamp <$> forecast_df.
Proof.
  unfold sorted_timestamps. by rewrite merge_sort_Permutation, elem_of_unique.
Qed.

Lemma elem_of_sorted_machines forecast_df m :
  m ∈ sorted_machines forecast_df ↔ m ∈ fc_machine_id <$> forecast_df.
Proof.
  unfold sorted_machines. by rewrite merge_sort_Permutation, elem_of_unique.
Qed.

(** The dictionary of predicted demands: no entry for a key without a
    forecast row, otherwise the demand of one of the rows with that key. *)
Lemma build_pred_map_lookup forecast_df (key : string * Z) :
  match build_pred_map forecast_df !! key with
  | None => ∀ r, r ∈ forecast_df → (fc_machine_id r, fc_timestamp r) ≠ key
  | Some p => ∃ r, r ∈ forecast_df
                ∧ (fc_machine_id r, fc_timestamp r) = key
                ∧ fc_predicted_demand r = p
  end.
Proof.
  unfold build_pred_map.
  induction forecast_df as [|r forecast_df IH] using rev_ind.
  { simpl. rewrite lookup_empty. by intros ? ?%elem_of_nil. }
  rewrite foldl_snoc.
  destruct (decide ((fc_machine_id r, fc_timestamp r) = key)) as [Hk|Hk].
  - rewrite Hk, lookup_insert_eq. exists r. split; [|done].
    apply elem_of_app. right. by left.
  - rewrite lookup_insert_ne by done.
    destruct (foldl _ _ _ !! key) as [p|].
    + destruct IH as (r' & Hin & Hkey & Hp). exists r'.
      split; [|done]. apply elem_of_app. by left.
    + intros r' [Hin|Hin%list_elem_of_singleton]%elem_of_app; [by apply IH|].
      by subst.
Qed.

(** [pred_map.get(key, 0)] in terms of the forecast table. *)
Lemma pred_get_no_forecast forecast_df key :
  (∀ r, r ∈ forecast_df → (fc_machine_id r, fc_timestamp r) ≠ key) →
  pred_get (build_pred_map forecast_df) key = 0%Q.
Proof.
  intros Hnone. unfold pred_get.
  pose proof (build_pred_map_lookup forecast_df key) as Hl.
  destruct (build_pred_map forecast_df !! key) as [p|]; [|done].
  destruct Hl as (r & Hin & Hkey & _). by destruct (Hnone r Hin).
Qed.

Lemma pred_get_forecast forecast_df key p :
  (∃ r, r ∈ forecast_df ∧ (fc_machine_id r, fc_timestamp r) = key) →
  (∀ r, r ∈ forecast_df → (fc_machine_id r, fc_timestamp r) = key →
        fc_predicted_demand r = p) →
  pred_get (build_pred_map forecast_df) key = p.
Proof.
  intros (r0 & Hin0 & Hkey0) Hall. unfold pred_get.
  pose proof (build_pred_map_lookup forecast_df key) as Hl.
  destruct (build_pred_map forecast_df !! key) as [p'|]; simpl.
  - destruct Hl as (r & Hin & Hkey & <-). by apply Hall.
  - by destruct (Hl r0 Hin0).
Qed.
End pairs_facts.

(** ** Runs of [optimize_all] *)

Section runs.
Import optimize.
Context `{ORTools}.

(** A run that saved went through every step. *)
Lemma optimize_all_Saved conn conn' :
  optimize_all conn = Ok (Saved, conn') →
  let forecast_df := (fetch_data conn).1.1 in
  let specs_df := (fetch_data conn).1.2 in
  let energy_cost_map := (fetch_data conn).2 in
  let pred_map := build_pred_map forecast_df in
  let machines := sorted_machines forecast_df in
  let timestamps := sorted_timestamps forecast_df in
  ∃ solver solution_value rows,
    build_model specs_df energy_cost_map pred_map machines timestamps empty_solver
      = Ok solver
    ∧ Solve solver = (OPTIMAL, solution_value)
    ∧ build_results specs_df energy_cost_map pred_map solution_value
        (pairs machines timestamps) = Ok rows
    ∧ conn' = set_optimizations conn rows.
Proof.
  unfold optimize_all, fetch_data. simpl.
  destruct (merge_sort fc_before (forecasts conn)) as [|r forecast_df] eqn:Hdf;
    [done|].
  unfold CreateSolver. destruct SCIP_available; [|done].
  destruct (build_model _ _ _ _ _ _) as [solver|e] eqn:Hmodel; [|done].
  simpl. destruct (Solve solver) as [status solution_value] eqn:Hsolve.
  case_decide as Hst; [|done]. subst status.
  destruct (build_results _ _ _ _ _) as [rows|e] eqn:Hrows; [|done].
  simpl. intros [= <-]. by exists solver, solution_value, rows.
Qed.

(** A run that did not save returned the database it was given. *)
Lemma optimize_all_not_Saved conn report conn' :
  optimize_all conn = Ok (report, conn') → report ≠ Saved → conn' = conn.
Proof.
  unfold optimize_all, fetch_data. simpl.
  destruct (merge_sort fc_before (forecasts conn)) as [|r forecast_df];
    [by intros [= <- <-]|].
  unfold CreateSolver. destruct SCIP_available; [|by intros [= <- <-]].
  destruct (build_model _ _ _ _ _ _) as [solver|e]; [|done].
  simpl. destruct (Solve solver) as [status solution_value].
  case_decide; [|by intros [= <- <-]].
  destruct (build_results _ _ _ _ _) as [rows|e]; [|done].
  simpl. by intros [= <- <-] ?.
Qed.

Lemma forecast_frame_nil conn :
  (fetch_data conn).1.1 = [] ↔ forecasts conn = [].
Proof.
  unfold fetch_data; simpl. split; intros Hnil.
  - apply Permutation_nil_r. rewrite <- Hnil. by rewrite merge_sort_Permutation.
  - by rewrite Hnil.
Qed.

Lemma elem_of_forecast_frame conn r :
  r ∈ (fetch_data conn).1.1 ↔ r ∈ forecasts conn.
Proof. unfold fetch_data; simpl. by rewrite merge_sort_Permutation. Qed.
End runs.

(** C2. A failed run writes nothing: when the forecast table is empty, when
    no solver can be created, or when the solver's status is not [OPTIMAL],
    [optimize_all] returns the database exactly as it received it (all three
    tables, so no result row was deleted or inserted); more generally every
    run that does not report a saved result does. *)
Theorem failed_run_writes_nothing `{optimize.ORTools} (conn : DB) :
  (forecasts conn = [] →
     optimize.optimize_all conn = Ok (optimize.NoForecasts, conn))
  ∧ (forecasts conn ≠ [] → optimize.SCIP_available = false →
     optimize.optimize_all conn = Ok (optimize.SolverNotAvailable, conn))
  ∧ (∀ solver,
       forecasts conn ≠ [] → optimize.SCIP_available = true →
       optimize.build_model (optimize.fetch_data conn).1.2 (optimize.fetch_data conn).2
         (optimize.build_pred_map (optimize.fetch_data conn).1.1)
         (optimize.sorted_machines (optimize.fetch_data conn).1.1)
         (optimize.sorted_timestamps (optimize.fetch_data conn).1.1)
         optimize.empty_solver = Ok solver →
       (optimize.Solve solver).1 ≠ optimize.OPTIMAL →
       optimize.optimize_all conn = Ok (optimize.NoOptimalSolution, conn))
  ∧ (∀ report conn',
       optimize.optimize_all conn = Ok (report, conn') →
       report ≠ optimize.Saved → conn' = conn).
Proof.
  split; [|split; [|split]].
  - intros Hnil. apply (forecast_frame_nil conn) in Hnil.
    unfold optimize.optimize_all. unfold optimize.fetch_data in *. simpl in *.
    by rewrite Hnil.
  - intros Hne Hscip.
    assert ((optimize.fetch_data conn).1.1 ≠ []) as Hdf
      by by rewrite forecast_frame_nil.
    unfold optimize.optimize_all. unfold optimize.fetch_data in *. simpl in *.
    destruct (merge_sort optimize.fc_before (forecasts conn)); [done|].
    unfold optimize.CreateSolver. by rewrite Hscip.
  - intros solver Hne Hscip Hmodel Hstatus.
    assert ((optimize.fetch_data conn).1.1 ≠ []) as Hdf
      by by rewrite forecast_frame_nil.
    unfold optimize.optimize_all. unfold optimize.fetch_data in *. simpl in *.
    destruct (merge_sort optimize.fc_before (forecasts conn)) eqn:Hsorted; [done|].
    unfold optimize.CreateSolver. rewrite Hscip, Hmodel. simpl.
    destruct (optimize.Solve solver) as [status solution_value]. simpl in *.
    by rewrite decide_False.
  - apply optimize_all_not_Saved.
Qed.

Lemma failed_run_writes_nothing_witness :
  optimize.optimize_all (H := infeasible_solver) small_plant
    = Ok (optimize.NoOptimalSolution, small_plant)
  ∧ optimize.optimize_all (H := no_solver) small_plant
    = Ok (optimize.SolverNotAvailable, small_plant)
  ∧ optimize.optimize_all (H := idle_solver) (set_forecasts small_plant [])
    = Ok (optimize.NoForecasts, set_forecasts small_plant []).
Proof.
  split; [|split].
  - eapply (failed_run_writes_nothing (H := infeasible_solver) small_plant);
      [done|done|vm_compute; reflexivity|done].
  - by apply (failed_run_writes_nothing (H := no_solver) small_plant).
  - by apply (failed_run_writes_nothing (H := idle_solver)
                (set_forecasts small_plant [])).
Defined.

Lemma Forall2_impl_elem {A B : Type} (P R : A → B → Prop) (l : list A) (k : list B) :
  Forall2 P l k → (∀ x y, x ∈ l → P x y → R x y) → Forall2 R l k.
Proof.
  induction 1 as [|x y l k Hxy _ IH]; intros Himpl; constructor.
  - apply Himpl; [left|done].
  - apply IH. intros x' y' Hx'. apply Himpl. by right.
Qed.

Section optimal_runs.
Import optimize.
Context `{ORTools}.

(** What an optimal run guarantees for every pair and every timestamp, in
    terms of the solution returned by the solver. *)
Lemma optimal_run_solution conn conn' :
  solver_sound →
  optimize_all conn = Ok (Saved, conn') →
  let forecast_df := (fetch_data conn).1.1 in
  let specs_df := (fetch_data conn).1.2 in
  let pred_map := build_pred_map forecast_df in
  let machines := sorted_machines forecast_df in
  let timestamps := sorted_timestamps forecast_df in
  ∃ solution_value,
    Forall2 (λ var row,
        ∃ spec, loc specs_df var.1 = Ok spec
          ∧ opt_machine_id row = var.1
          ∧ opt_timestamp row = var.2
          ∧ optimized_production row = solution_value var
          ∧ baseline_production row
            = py_int (py_min (pred_get pred_map var) (max_capacity spec))
          ∧ (0 <= solution_value var)%Q
          ∧ (solution_value var <= max_capacity spec)%Q
          ∧ (solution_value var <= pred_get pred_map var)%Q)
      (pairs machines timestamps) (optimizations conn')
    ∧ (∀ ts, ts ∈ timestamps →
         (Qsum ((λ m, solution_value (m, ts)) <$> machines)
          <= plant_capacity_limit specs_df)%Q).
Proof.
  intros Hsound Hrun forecast_df specs_df pred_map machines timestamps.
  apply optimize_all_Saved in Hrun
    as (solver & solution_value & rows & Hmodel & Hsolve & Hrows & ->).
  fold forecast_df specs_df pred_map machines timestamps in Hmodel, Hrows.
  apply Hsound in Hsolve as [Hbounds Hcons].
  apply build_model_spec in Hmodel as (Hvars & Hplant & Hdemand).
  apply build_results_spec in Hrows.
  rewrite Forall_forall in Hbounds. rewrite Forall_forall in Hcons.
  exists solution_value. split.
  - simpl. eapply Forall2_impl_elem; [exact Hrows|].
    intros var row Hvar Hrow.
    apply result_row_spec in Hrow as (spec & Hloc & Hm & Hts & _ & Hopt & Hbase).
    destruct (Hvars var Hvar) as (spec' & Hloc' & Hin).
    assert (spec' = spec) as -> by congruence.
    apply Hbounds in Hin as [Hlb Hub]. simpl in Hlb, Hub.
    pose proof (Hcons _ (Hdemand var Hvar)) as Hd.
    unfold constraint_holds, Qsum in Hd. simpl in Hd.
    exists spec. repeat (split; [done|]). lra.
  - intros ts Hts. pose proof (Hcons _ (Hplant ts Hts)) as Hp.
    unfold constraint_holds in Hp. simpl in Hp.
    rewrite <- list_fmap_compose in Hp.
    erewrite Qsum_ext; [exact Hp|].
    intros m _. simpl. lra.
Qed.
End optimal_runs.

(** C1. Assume the solver reports [OPTIMAL] only together with a feasible
    solution (arithmetic is exact). Then after every run that saves its
    results, every row of the result table has
    [0 <= optimized_production <= max_capacity] of its machine and
    [optimized_production <=] the demand ceiling of its (machine, timestamp):
    the value looked up in the forecast dictionary, which is 0 when the pair
    has no forecast row and the predicted demand of the pair's forecast when
    it has one; and for every timestamp of the table the optimized production
    summed over the rows of that timestamp, one per machine, is at most 0.9
    times the summed [max_capacity] of all machine specifications. *)
Theorem optimal_rows_within_limits `{optimize.ORTools}
    (Hsound : optimize.solver_sound) (conn conn' : DB)
    (Hrun : optimize.optimize_all conn = Ok (optimize.Saved, conn')) :
  let specs_df := optimize.fetch_specs (raw_data conn) in
  let pred_map := optimize.build_pred_map (optimize.fetch_data conn).1.1 in
  (∀ row, row ∈ optimizations conn' →
     let key := (opt_machine_id row, opt_timestamp row) in
     ∃ spec, optimize.loc specs_df (opt_machine_id row) = Ok spec
       ∧ (0 <= optimized_production row)%Q
       ∧ (optimized_production row <= optimize.max_capacity spec)%Q
       ∧ (optimized_production row <= optimize.pred_get pred_map key)%Q
       ∧ ((∀ r, r ∈ forecasts conn → (fc_machine_id r, fc_timestamp r) ≠ key) →
          (optimized_production row <= 0)%Q)
       ∧ (∀ p, (∃ r, r ∈ forecasts conn ∧ (fc_machine_id r, fc_timestamp r) = key) →
             (∀ r, r ∈ forecasts conn → (fc_machine_id r, fc_timestamp r) = key →
                   fc_predicted_demand r = p) →
             (optimized_production row <= p)%Q))
  ∧ (∀ ts, ts ∈ opt_timestamp <$> optimizations conn' →
       (Qsum (optimized_production <$>
                filter (λ r, opt_timestamp r = ts) (optimizations conn'))
        <= (9 # 10) * Qsum (optimize.max_capacity <$> specs_df))%Q).
Proof.
  intros specs_df pred_map.
  destruct (optimal_run_solution conn conn' Hsound Hrun)
    as (solution_value & Hrows & Hplant).
  change (optimize.fetch_data conn).1.2 with specs_df in Hrows, Hplant.
  fold pred_map in Hrows.
  split.
  - intros row Hrow key.
    apply list_elem_of_lookup in Hrow as [i Hi].
    destruct (Forall2_lookup_r _ _ _ _ _ Hrows Hi)
      as (var & _ & spec & Hloc & Hm & Hts & Hopt & _ & Hlb & Hub & Hdem).
    assert (key = var) as Hkey by (subst key; destruct var; simpl in *; congruence).
    rewrite Hkey, Hm, Hopt. exists spec.
    split; [done|]. split; [done|]. split; [done|]. split; [done|]. split.
    + intros Hnone. subst pred_map.
      rewrite pred_get_no_forecast in Hdem; [done|].
      intros r Hr%elem_of_forecast_frame. by apply Hnone.
    + intros p (r & Hr & Hrk) Hall. subst pred_map.
      rewrite (pred_get_forecast _ _ p) in Hdem; [done| |].
      * exists r. by rewrite elem_of_forecast_frame.
      * intros r' Hr'%elem_of_forecast_frame. by apply Hall.
  - intros ts (row & -> & Hrow)%list_elem_of_fmap.
    apply list_elem_of_lookup in Hrow as [i Hi].
    destruct (Forall2_lookup_r _ _ _ _ _ Hrows Hi)
      as ([m ts] & Hvar%list_elem_of_lookup_2 & spec & _ & _ & Hts & _).
    apply elem_of_pairs in Hvar as [_ Hin]. simpl in Hts. rewrite Hts.
    erewrite (rows_filter_timestamp solution_value).
    2:{ eapply Forall2_impl; [exact Hrows|].
        intros var row' (spec' & _ & _ & ? & ? & _). done. }
    rewrite pairs_filter_timestamp
      by (done || apply NoDup_sorted_timestamps).
    rewrite <- list_fmap_compose.
    specialize (Hplant ts Hin). unfold optimize.plant_capacity_limit in Hplant.
    unfold compose. lra.
Qed.

Lemma checking_solver_sound candidate :
  optimize.solver_sound (H := checking_solver candidate).
Proof.
  intros s solution_value. simpl. case_decide as Hf; [|done].
  by intros [= <-].
Qed.

Lemma optimal_rows_within_limits_witness :
  optimize.optimize_all (H := follow_demand_solver) gappy_plant
    = Ok (optimize.Saved, gappy_plant_saved)
  ∧ ∀ ts, ts ∈ opt_timestamp <$> optimizations gappy_plant_saved →
      (Qsum (optimized_production <$>
               filter (λ r, opt_timestamp r = ts) (optimizations gappy_plant_saved))
       <= (9 # 10) * Qsum (optimize.max_capacity <$>
                             optimize.fetch_specs (raw_data gappy_plant)))%Q.
Proof.
  split; [vm_compute; reflexivity|].
  apply (optimal_rows_within_limits (H := follow_demand_solver)
           (checking_solver_sound follow_demand) gappy_plant gappy_plant_saved).
  vm_compute; reflexivity.
Defined.

(** ** Baseline production *)

Lemma py_min_spec (a b : Q) :
  (py_min a b <= a)%Q ∧ (py_min a b <= b)%Q ∧ (py_min a b = a ∨ py_min a b = b).
Proof.
  unfold py_min. destruct (Qlt_le_dec b a) as [Hlt|Hle].
  - split; [by apply Qlt_le_weak|]. split; [apply Qle_refl|by right].
  - split; [apply Qle_refl|]. split; [done|by left].
Qed.

(** [int()] truncates towards zero. *)
Lemma py_int_spec (x : Q) :
  ((0 <= x)%Q → (inject_Z (py_int x) <= x)%Q ∧ (x < inject_Z (py_int x) + 1)%Q)
  ∧ ((x <= 0)%Q → (x <= inject_Z (py_int x))%Q ∧ (inject_Z (py_int x) - 1 < x)%Q).
Proof.
  destruct x as [n d]. unfold py_int, Qle, Qlt. simpl.
  pose proof (Z.quot_rem' n (Z.pos d)) as Hqr.
  split; intros Hsign.
  - assert (0 ≤ n) as Hn by lia.
    pose proof (Z.rem_bound_pos n (Z.pos d) Hn ltac:(lia)) as Hr.
    nia.
  - assert (n ≤ 0) as Hn by lia.
    pose proof (Z.rem_bound_pos (- n) (Z.pos d) ltac:(lia) ltac:(lia)) as Hr.
    rewrite Z.rem_opp_l' in Hr. nia.
Qed.

Lemma py_int_integer (x : Q) (z : Z) : (x == inject_Z z)%Q → py_int x = z.
Proof.
  destruct x as [n d]. unfold py_int, Qeq. simpl. intros Heq.
  assert (n = z * Z.pos d) as -> by lia.
  apply Z.quot_mul. lia.
Qed.

Lemma keys_of_rows (vars : list (string * Z)) (rows : list OptimizationResult) :
  Forall2 (λ var row, opt_machine_id row = var.1 ∧ opt_timestamp row = var.2)
    vars rows →
  (λ r, (opt_machine_id r, opt_timestamp r)) <$> rows = vars.
Proof.
  induction 1 as [|[m ts] row vars rows [Hm Hts] _ IH]; [done|].
  rewrite fmap_cons, IH. simpl in *. by rewrite Hm, Hts.
Qed.

Section saved_rows.
Import optimize.
Context `{ORTools}.

(** The rows of a saved run, pair by pair, whatever the solver returned. *)
Lemma saved_run_rows conn conn' :
  optimize_all conn = Ok (Saved, conn') →
  let forecast_df := (fetch_data conn).1.1 in
  let specs_df := (fetch_data conn).1.2 in
  let pred_map := build_pred_map forecast_df in
  Forall2 (λ var row,
      ∃ spec, loc specs_df var.1 = Ok spec
        ∧ opt_machine_id row = var.1
        ∧ opt_timestamp row = var.2
        ∧ baseline_production row
          = py_int (py_min (pred_get pred_map var) (max_capacity spec)))
    (pairs (sorted_machines forecast_df) (sorted_timestamps forecast_df))
    (optimizations conn').
Proof.
  intros Hrun forecast_df specs_df pred_map.
  apply optimize_all_Saved in Hrun
    as (solver & solution_value & rows & _ & _ & Hrows & ->).
  apply build_results_spec in Hrows. simpl.
  eapply Forall2_impl; [exact Hrows|].
  intros var row (spec & ? & ? & ? & _ & _ & ?)%result_row_spec.
  by exists spec.
Qed.

Lemma saved_run_keys conn conn' :
  optimize_all conn = Ok (Saved, conn') →
  (λ r, (opt_machine_id r, opt_timestamp r)) <$> optimizations conn'
  = pairs (sorted_machines (fetch_data conn).1.1)
          (sorted_timestamps (fetch_data conn).1.1).
Proof.
  intros Hrun%saved_run_rows. simpl in Hrun.
  apply keys_of_rows. eapply Forall2_impl; [exact Hrun|].
  by intros var row (spec & _ & ? & ? & _).
Qed.
End saved_rows.

(** C4 (amended). In every row saved by an optimal run, [baseline_production]
    is [min(predicted_demand, max_capacity)] of its (machine, timestamp)
    truncated towards zero to an integer, the predicted demand being 0 when
    the pair has no forecast row; it is that minimum itself whenever the
    minimum is an integer. *)
Theorem baseline_is_truncated_minimum `{optimize.ORTools} (conn conn' : DB)
    (Hrun : optimize.optimize_all conn = Ok (optimize.Saved, conn')) :
  let specs_df := optimize.fetch_specs (raw_data conn) in
  let pred_map := optimize.build_pred_map (optimize.fetch_data conn).1.1 in
  ∀ row, row ∈ optimizations conn' →
    let key := (opt_machine_id row, opt_timestamp row) in
    ∃ spec demand,
      optimize.loc specs_df (opt_machine_id row) = Ok spec
      ∧ demand = optimize.pred_get pred_map key
      ∧ ((∀ r, r ∈ forecasts conn → (fc_machine_id r, fc_timestamp r) ≠ key) →
         demand = 0%Q)
      ∧ (∀ p, (∃ r, r ∈ forecasts conn ∧ (fc_machine_id r, fc_timestamp r) = key) →
             (∀ r, r ∈ forecasts conn → (fc_machine_id r, fc_timestamp r) = key →
                   fc_predicted_demand r = p) →
             demand = p)
      ∧ let minimum := py_min demand (optimize.max_capacity spec) in
        baseline_production row = py_int minimum
        ∧ (minimum <= demand)%Q ∧ (minimum <= optimize.max_capacity spec)%Q
        ∧ (minimum = demand ∨ minimum = optimize.max_capacity spec)
        ∧ ((0 <= minimum)%Q →
           (inject_Z (baseline_production row) <= minimum)%Q
           ∧ (minimum < inject_Z (baseline_production row) + 1)%Q)
        ∧ ((minimum <= 0)%Q →
           (minimum <= inject_Z (baseline_production row))%Q
           ∧ (inject_Z (baseline_production row) - 1 < minimum)%Q)
        ∧ (∀ z, (minimum == inject_Z z)%Q → baseline_production row = z).
Proof.
  intros specs_df pred_map row Hrow key.
  pose proof (saved_run_rows conn conn' Hrun) as Hrows. simpl in Hrows.
  apply list_elem_of_lookup in Hrow as [i Hi].
  destruct (Forall2_lookup_r _ _ _ _ _ Hrows Hi)
    as (var & _ & spec & Hloc & Hm & Hts & Hbase).
  assert (key = var) as Hkey by (subst key; destruct var; simpl in *; congruence).
  exists spec, (optimize.pred_get pred_map key).
  split; [by rewrite Hm|]. split; [done|]. split; [|split].
  - intros Hnone. apply pred_get_no_forecast.
    intros r Hr%elem_of_forecast_frame. by apply Hnone.
  - intros p (r & Hr & Hrk) Hall. apply pred_get_forecast.
    + exists r. by rewrite elem_of_forecast_frame.
    + intros r' Hr'%elem_of_forecast_frame. by apply Hall.
  - intros minimum. subst minimum. rewrite Hkey, Hbase.
    destruct (py_min_spec (optimize.pred_get pred_map var) (optimize.max_capacity spec))
      as (? & ? & ?).
    destruct (py_int_spec (py_min (optimize.pred_get pred_map var)
                                  (optimize.max_capacity spec))) as [? ?].
    repeat (split; [done|]). apply py_int_integer.
Qed.

Lemma baseline_is_truncated_minimum_witness :
  optimize.optimize_all (H := idle_solver) small_plant
    = Ok (optimize.Saved, small_plant_saved)
  ∧ ∀ row, row ∈ optimizations small_plant_saved →
      ∃ spec demand,
        optimize.loc (optimize.fetch_specs (raw_data small_plant))
                     (opt_machine_id row) = Ok spec
        ∧ demand = optimize.pred_get
                     (optimize.build_pred_map (optimize.fetch_data small_plant).1.1)
                     (opt_machine_id row, opt_timestamp row)
        ∧ baseline_production row
          = py_int (py_min demand (optimize.max_capacity spec)).
Proof.
  split; [vm_compute; reflexivity|].
  intros row Hrow.
  destruct (baseline_is_truncated_minimum (H := idle_solver)
              small_plant small_plant_saved ltac:(vm_compute; reflexivity) row Hrow)
    as (spec & demand & Hloc & Hdemand & _ & _ & Hbase & _).
  by exists spec, demand.
Defined.

(** C4 as stated fails: for a forecast of 52.7 and a capacity of 80 the
    stored baseline is 52, which is not [min(52.7, 80)]. *)
Lemma baseline_minimum_counterexample :
  ∃ row spec,
    optimize.optimize_all (H := idle_solver) small_plant
      = Ok (optimize.Saved, small_plant_saved)
    ∧ optimizations small_plant_saved = [row]
    ∧ forecasts small_plant
      = [mk_ForecastPoint (opt_timestamp row) (opt_machine_id row) (527 # 10)]
    ∧ optimize.loc (optimize.fetch_specs (raw_data small_plant))
                   (opt_machine_id row) = Ok spec
    ∧ (optimize.max_capacity spec == 80)%Q
    ∧ baseline_production row = 52
    ∧ ¬ (inject_Z (baseline_production row)
         == py_min (527 # 10) (optimize.max_capacity spec))%Q.
Proof.
  eexists _, _.
  split; [vm_compute; reflexivity|].
  split; [reflexivity|].
  split; [reflexivity|].
  split; [vm_compute; reflexivity|].
  split; [reflexivity|].
  split; [reflexivity|].
  vm_compute. discriminate.
Qed.

(** ** One row per pair *)

Lemma length_filter_key {A K : Type} `{EqDecision K} (f : A → K) (l : list A) (k : K) :
  NoDup (f <$> l) →
  length (filter (λ x, f x = k) l) = if decide (k ∈ f <$> l) then 1%nat else 0%nat.
Proof.
  induction l as [|x l IH]; intros Hnd.
  { rewrite decide_False; [done|]. by intros ?%elem_of_nil. }
  rewrite fmap_cons in Hnd. apply NoDup_cons in Hnd as [Hx Hnd].
  specialize (IH Hnd). rewrite fmap_cons.
  destruct (decide (f x = k)) as [Hk|Hk].
  - rewrite filter_cons_True by done. simpl. rewrite IH.
    rewrite (decide_False (P := k ∈ f <$> l)) by congruence.
    rewrite decide_True; [done|]. rewrite Hk. left.
  - rewrite filter_cons_False by done. rewrite IH.
    destruct (decide (k ∈ f <$> l)) as [Hin|Hin].
    + rewrite decide_True; [done|]. by right.
    + rewrite decide_False; [done|].
      intros [?|?]%elem_of_cons; [congruence|done].
Qed.

(** C10. Assume the solver reports [OPTIMAL] only together with a feasible
    solution. After a run that saves its results the result table holds
    exactly one row for every pair of a machine id and a timestamp that each
    occur somewhere in the forecast table, and no other row; a row whose
    pair has no forecast row has [optimized_production] 0 and
    [baseline_production] 0. *)
Theorem saved_rows_cover_cross_product `{optimize.ORTools}
    (Hsound : optimize.solver_sound) (conn conn' : DB)
    (Hrun : optimize.optimize_all conn = Ok (optimize.Saved, conn')) :
  let keys := (λ r, (opt_machine_id r, opt_timestamp r)) <$> optimizations conn' in
  let in_cross_product (m : string) (ts : Z) :=
    m ∈ fc_machine_id <$> forecasts conn ∧ ts ∈ fc_timestamp <$> forecasts conn in
  NoDup keys
  ∧ (∀ m ts, (m, ts) ∈ keys ↔ in_cross_product m ts)
  ∧ (∀ m ts,
       length (filter (λ r, opt_machine_id r = m ∧ opt_timestamp r = ts)
                      (optimizations conn'))
       = if decide (in_cross_product m ts) then 1%nat else 0%nat)
  ∧ (∀ row, row ∈ optimizations conn' →
       (∀ r, r ∈ forecasts conn →
          (fc_machine_id r, fc_timestamp r) ≠ (opt_machine_id row, opt_timestamp row)) →
       (optimized_production row == 0)%Q ∧ baseline_production row = 0).
Proof.
  intros keys in_cross_product.
  pose proof (saved_run_keys conn conn' Hrun) as Hkeys. fold keys in Hkeys.
  assert (NoDup keys) as Hnd.
  { rewrite Hkeys.
    apply NoDup_pairs; [apply NoDup_sorted_machines|apply NoDup_sorted_timestamps]. }
  assert (∀ m ts, (m, ts) ∈ keys ↔ in_cross_product m ts) as Hcross.
  { intros m ts. rewrite Hkeys, elem_of_pairs.
    rewrite elem_of_sorted_machines, elem_of_sorted_timestamps.
    unfold in_cross_product, optimize.fetch_data. simpl.
    by rewrite !merge_sort_Permutation. }
  split; [done|]. split; [done|]. split.
  - intros m ts.
    rewrite (list_filter_iff _ (λ r, (opt_machine_id r, opt_timestamp r) = (m, ts))).
    2:{ intros r. split; [by intros [-> ->]|by intros [= -> ->]]. }
    rewrite (length_filter_key (λ r, (opt_machine_id r, opt_timestamp r))) by done.
    fold keys. destruct (decide ((m, ts) ∈ keys)) as [Hin|Hin].
    + rewrite decide_True; [done|]. by apply Hcross.
    + rewrite decide_False; [done|]. by rewrite <- Hcross.
  - intros row Hrow Hnone.
    destruct (optimal_run_solution conn conn' Hsound Hrun)
      as (solution_value & Hrows & _).
    apply list_elem_of_lookup in Hrow as [i Hi].
    destruct (Forall2_lookup_r _ _ _ _ _ Hrows Hi)
      as (var & _ & spec & _ & Hm & Hts & Hopt & Hbase & Hlb & Hub & Hdem).
    assert ((opt_machine_id row, opt_timestamp row) = var) as Hkey
      by (destruct var; simpl in *; congruence).
    rewrite Hkey in Hnone.
    rewrite pred_get_no_forecast in Hdem, Hbase.
    2,3: intros r Hr%elem_of_forecast_frame; by apply Hnone.
    split.
    + rewrite Hopt. by apply Qle_antisym.
    + rewrite Hbase. unfold py_min.
      destruct (Qlt_le_dec (optimize.max_capacity spec) 0) as [Hneg|_]; [|done].
      exfalso. lra.
Qed.

Lemma saved_rows_cover_cross_product_witness :
  optimize.optimize_all (H := follow_demand_solver) gappy_plant
    = Ok (optimize.Saved, gappy_plant_saved)
  ∧ length (filter (λ r, opt_machine_id r = "B" ∧ opt_timestamp r = 1705284000)
                   (optimizations gappy_plant_saved)) = 1%nat
  ∧ ∀ row, row ∈ optimizations gappy_plant_saved →
      (∀ r, r ∈ forecasts gappy_plant →
         (fc_machine_id r, fc_timestamp r) ≠ (opt_machine_id row, opt_timestamp row)) →
      (optimized_production row == 0)%Q ∧ baseline_production row = 0.
Proof.
  split; [vm_compute; reflexivity|].
  pose proof (saved_rows_cover_cross_product (H := follow_demand_solver)
    (checking_solver_sound follow_demand) gappy_plant gappy_plant_saved
    ltac:(vm_compute; reflexivity)) as (_ & _ & Hcount & Hzero).
  split; [|exact Hzero].
  rewrite Hcount. reflexivity.
Defined.

(** ** The window of the machine specifications *)

(** C9 fails on the code. [fetch_data] subtracts the text ['1 day'] from the
    text of the latest timestamp; SQLite evaluates that on their numeric
    prefixes (2024 - 1), and every timestamp of the latest year or the year
    before compares greater than the result. For one machine observed on
    2024-01-10 (capacity 40, energy 2 per unit) and on 2024-01-15 (capacity
    120, energy 4 per unit), the older observation lies more than one day
    before the latest one, yet it passes the WHERE clause and the
    specification used by the run is the average over both (80 and 3), where
    the trailing one-day window gives 120 and 4. *)
Theorem specs_window_keeps_old_observations :
  let old := mk_datetime 2024 1 10 0 0 0 in
  let latest := mk_datetime 2024 1 15 0 0 0 in
  (obs_timestamp <$> stale_raw = [old; latest])
  ∧ to_instant old < to_instant latest - 86400
  ∧ sqlite.max_text ((λ o, sqlite.strftime (obs_timestamp o)) <$> stale_raw)
    = Some "2024-01-15 00:00:00"
  ∧ sqlite.text_minus "2024-01-15 00:00:00" "1 day" = 2023
  ∧ Forall (λ o, optimize.in_specs_window "2024-01-15 00:00:00" o = true) stale_raw
  ∧ (∃ spec, optimize.fetch_specs stale_raw = [spec]
       ∧ optimize.spec_machine_id spec = "M1"
       ∧ (optimize.max_capacity spec == 80)%Q
       ∧ (optimize.energy_per_unit spec == 3)%Q)
  ∧ (∃ spec, optimize.specs_trailing_day stale_raw = [spec]
       ∧ optimize.spec_machine_id spec = "M1"
       ∧ (optimize.max_capacity spec == 120)%Q
       ∧ (optimize.energy_per_unit spec == 4)%Q).
Proof.
  intros old latest.
  split; [reflexivity|]. split; [vm_compute; reflexivity|].
  split; [vm_compute; reflexivity|]. split; [vm_compute; reflexivity|].
  split; [repeat constructor|].
  split; eexists; (split; [vm_compute; reflexivity|]);
    (split; [reflexivity|]); split; reflexivity.
Qed.

(** * Further properties of forecast.py *)

(** ** Training windows *)

(** X1. [make_sequences] pairs every window of [window] consecutive values
    with the value that follows it: there are [len(series) - window] pairs
    (none when the series is not longer than the window), the [i]-th window
    is [series[i], ..., series[i + window - 1]] and its target is
    [series[i + window]]. *)
Theorem make_sequences_pairs (series : list Q) (window : nat) :
  let X := (forecast.make_sequences series window).1 in
  let y := (forecast.make_sequences series window).2 in
  length X = (length series - window)%nat
  ∧ length y = length X
  ∧ ((length series ≤ window)%nat → X = [] ∧ y = [])
  ∧ ∀ i, (i < length series - window)%nat →
      ∃ w t, X !! i = Some w
        ∧ y !! i = Some t
        ∧ length w = window
        ∧ (∀ j, (j < window)%nat → w !! j = series !! (i + j)%nat)
        ∧ series !! (i + window)%nat = Some t.
Proof.
  intros X y. subst X y.
  destruct (make_sequences_length series window) as [HX Hy].
  split; [done|]. split; [congruence|]. split.
  - intros Hshort. split; apply length_zero_iff_nil; lia.
  - intros i Hi.
    destruct (lookup_lt_is_Some_2 series (i + window)) as [t Ht]; [lia|].
    exists (take window (drop i series)), t.
    split; [|split; [|split; [|split]]].
    + unfold forecast.make_sequences; simpl.
      by rewrite list_lookup_fmap, lookup_seq_lt.
    + by rewrite make_sequences_targets.
    + rewrite length_take, length_drop. lia.
    + intros j Hj. by rewrite lookup_take_lt, lookup_drop.
    + done.
Qed.

(** ** The autoregressive rollout *)

Section rollout_facts.
Import forecast.
Context `{ForecastLibs}.

(** Every prediction is made from the window slid over the values predicted
    before it. *)
Lemma rollout_windows model (w : list Q) steps preds :
  w ≠ [] →
  rollout model w steps = Ok preds →
  ∀ k p, preds !! k = Some p →
    model_predict model (drop k (w ++ take k preds)) = Some p.
Proof.
  revert w preds. induction steps as [|steps IH]; intros w preds Hw; simpl.
  { intros [= <-] k p Hk. by rewrite lookup_nil in Hk. }
  unfold library_call at 1.
  destruct TF_AVAILABLE; [|done].
  destruct (model_predict model w) as [p0|] eqn:Hp0; [|done]. simpl.
  destruct (rollout model (drop 1 w ++ [p0]) steps) as [rest|e] eqn:Hrest; [|done].
  simpl. intros [= <-] k p Hk.
  destruct k as [|k]; simpl in Hk.
  - injection Hk as <-. by rewrite take_0, app_nil_r, drop_0.
  - assert (drop 1 w ++ [p0] ≠ []) as Hw' by (by destruct (drop 1 w)).
    pose proof (IH _ _ Hw' Hrest k p Hk) as Hpred.
    destruct w as [|x w]; [done|]. simpl in *.
    by rewrite drop_0, <- app_assoc in Hpred.
Qed.
End rollout_facts.

(** X2. When [lstm_forecast] returns, the model was fitted on the windows of
    [make_sequences], there is one prediction per step, and the [k]-th
    prediction is the model's output on the last 24 values of the series
    extended by the [k] predictions before it. *)
Theorem lstm_forecast_autoregressive `{forecast.ForecastLibs}
    (series : list Q) (steps epochs : nat) (preds : list Q)
    (Hret : forecast.lstm_forecast series steps epochs = Ok preds) :
  ∃ model,
    forecast.Sequential_fit (forecast.make_sequences series 24).1
                            (forecast.make_sequences series 24).2 epochs = Some model
    ∧ length preds = steps
    ∧ ∀ k p, preds !! k = Some p →
        let window := drop (length series + k - 24) (series ++ take k preds) in
        length window = 24%nat
        ∧ forecast.model_predict model window = Some p.
Proof.
  destruct (lstm_forecast_Ok _ _ _ _ Hret) as [Hlen Hsteps].
  rewrite lstm_forecast_long in Hret by done.
  unfold forecast.library_call in Hret at 1.
  destruct forecast.TF_AVAILABLE; [|done].
  destruct (forecast.Sequential_fit _ _ _) as [model|]; [|done].
  simpl in Hret. exists model. split; [done|]. split; [done|].
  intros k p Hk window.
  assert (k < length preds)%nat as Hklt by by eapply lookup_lt_Some.
  assert (window = drop k (drop (length series - 24) series ++ take k preds)) as ->.
  { subst window.
    replace (length series + k - 24)%nat with (length series - 24 + k)%nat by lia.
    rewrite <- drop_drop. by rewrite (drop_app_le series) by lia. }
  split.
  - rewrite length_drop, length_app, length_drop, length_take. lia.
  - eapply rollout_windows; [|done..].
    intros Hnil%(f_equal length). rewrite length_drop in Hnil. simpl in Hnil. lia.
Qed.

Lemma lstm_forecast_autoregressive_witness :
  forecast.lstm_forecast (H := steady_libs) ramp 3 10 = Ok [34%Q; 34%Q; 34%Q]
  ∧ ∃ model : @forecast.keras_model steady_libs,
      length [34%Q; 34%Q; 34%Q] = 3%nat
      ∧ ∀ k p, [34%Q; 34%Q; 34%Q] !! k = Some p →
          @forecast.model_predict steady_libs model
            (drop (length ramp + k - 24) (ramp ++ take k [34%Q; 34%Q; 34%Q]))
          = Some p.
Proof.
  assert (forecast.lstm_forecast (H := steady_libs) ramp 3 10
          = Ok [34%Q; 34%Q; 34%Q]) as Hret by (vm_compute; reflexivity).
  split; [exact Hret|].
  destruct (lstm_forecast_autoregressive (H := steady_libs) _ _ _ _ Hret)
    as (model & _ & Hlen & Hwin).
  exists model. split; [done|]. intros k p Hk. by apply Hwin.
Defined.

(** ** More on [persist_forecasts] *)

Section persist_more.
Import forecast.
Implicit Types (conn : DB) (m : string) (base : Z) (preds : list Q).

Lemma NoDup_fmap_filter {A B : Type} (f : A → B) (P : A → Prop)
    `{!∀ x, Decision (P x)} (l : list A) :
  NoDup (f <$> l) → NoDup (f <$> filter P l).
Proof.
  induction l as [|x l IH]; [done|].
  rewrite fmap_cons. intros [Hx Hnd]%NoDup_cons.
  destruct (decide (P x)).
  - rewrite filter_cons_True by done. rewrite fmap_cons. apply NoDup_cons.
    split; [|by apply IH].
    intros (y & Hy & Hin%list_elem_of_filter)%list_elem_of_fmap.
    apply Hx, list_elem_of_fmap. exists y. tauto.
  - rewrite filter_cons_False by done. by apply IH.
Qed.

Lemma forecast_data_keys_NoDup m base preds :
  NoDup (fc_key <$> forecast_data m base preds).
Proof.
  apply NoDup_alt. intros i j k Hi Hj.
  rewrite list_lookup_fmap, forecast_data_lookup in Hi, Hj.
  destruct (preds !! i), (preds !! j); simplify_eq/=.
  unfold timedelta_hours in *. lia.
Qed.
End persist_more.

(** X3. [persist_forecasts] with an empty prediction list changes nothing: the
    horizon [[base + 1h, base + 0h]] of the DELETE is empty and there is
    nothing to insert. In general the table shrinks by the rows of the
    machine that lay in the horizon and grows by one row per prediction. *)
Theorem persist_forecasts_row_count
    (conn : DB) (m : string) (base : Z) (preds : list Q) :
  forecast.persist_forecasts conn m base [] = conn
  ∧ (length (forecasts (forecast.persist_forecasts conn m base preds))
     + length (filter (forecast.in_horizon m base (length preds)) (forecasts conn))
     = length (forecasts conn) + length preds)%nat.
Proof.
  split.
  - unfold forecast.persist_forecasts. simpl.
    rewrite app_nil_r, filter_all; [by destruct conn|].
    apply Forall_forall. intros r _ (_ & Hlo & Hhi).
    unfold timedelta_hours in *. simpl in *. lia.
  - unfold forecast.persist_forecasts. simpl.
    rewrite length_app, length_forecast_data.
    pose proof (filter_app_complement
      (forecast.in_horizon m base (length preds)) (forecasts conn)) as Hperm.
    apply Permutation_length in Hperm. rewrite length_app in Hperm. lia.
Qed.

(** [persist_forecasts] keeps forecast rows unique per (machine, timestamp). *)
Lemma persist_forecasts_NoDup_keys
    (conn : DB) (m : string) (base : Z) (preds : list Q) :
  NoDup (fc_key <$> forecasts conn) →
  NoDup (fc_key <$> forecasts (forecast.persist_forecasts conn m base preds)).
Proof.
  intros Hunique.
  unfold forecast.persist_forecasts. simpl. rewrite fmap_app.
  apply NoDup_app. split; [by apply NoDup_fmap_filter|].
  split; [|apply forecast_data_keys_NoDup].
  intros key (r & -> & [Hout _]%list_elem_of_filter)%list_elem_of_fmap
             (r' & Hkey & Hin)%list_elem_of_fmap.
  apply Hout.
  pose proof (forecast_data_in_horizon m base preds) as Hall.
  rewrite Forall_forall in Hall. specialize (Hall r' Hin).
  unfold forecast.in_horizon, fc_key in *. injection Hkey as Hm Hts.
  by rewrite Hm, Hts.
Qed.

(** X5. Persisting the forecasts of two different machines commutes: either
    order leaves the same rows, the old rows in the same places and the new
    rows of the two machines swapped at the end. *)
Theorem persist_forecasts_commute
    (conn : DB) (m1 m2 : string) (base1 base2 : Z) (preds1 preds2 : list Q)
    (Hdiff : m1 ≠ m2) :
  let kept :=
    filter (λ r, ¬ forecast.in_horizon m1 base1 (length preds1) r
                 ∧ ¬ forecast.in_horizon m2 base2 (length preds2) r) (forecasts conn) in
  forecasts (forecast.persist_forecasts
               (forecast.persist_forecasts conn m1 base1 preds1) m2 base2 preds2)
  = kept ++ forecast.forecast_data m1 base1 preds1
         ++ forecast.forecast_data m2 base2 preds2
  ∧ forecasts (forecast.persist_forecasts
                 (forecast.persist_forecasts conn m2 base2 preds2) m1 base1 preds1)
    = kept ++ forecast.forecast_data m2 base2 preds2
           ++ forecast.forecast_data m1 base1 preds1
  ∧ forecasts (forecast.persist_forecasts
                 (forecast.persist_forecasts conn m1 base1 preds1) m2 base2 preds2)
    ≡ₚ forecasts (forecast.persist_forecasts
                    (forecast.persist_forecasts conn m2 base2 preds2) m1 base1 preds1).
Proof.
  intros kept.
  assert (∀ ma mb ba bb pa pb, ma ≠ mb →
    forecasts (forecast.persist_forecasts
                 (forecast.persist_forecasts conn ma ba pa) mb bb pb)
    = filter (λ r, ¬ forecast.in_horizon ma ba (length pa) r
                   ∧ ¬ forecast.in_horizon mb bb (length pb) r) (forecasts conn)
      ++ forecast.forecast_data ma ba pa ++ forecast.forecast_data mb bb pb) as Hshape.
  { intros ma mb ba bb pa pb Hne. unfold forecast.persist_forecasts. simpl.
    rewrite filter_app, <- app_assoc. f_equal; [|f_equal].
    - rewrite list_filter_filter. apply list_filter_iff. tauto.
    - apply filter_all. eapply Forall_impl; [apply forecast_data_machine|].
      intros r Hr [Hm _]. simpl in *. congruence. }
  split; [by apply Hshape|]. split.
  - rewrite Hshape by done. f_equal. apply list_filter_iff. tauto.
  - rewrite !Hshape by done. f_equiv.
    + rewrite (list_filter_iff _ (λ r, ¬ forecast.in_horizon m2 base2 (length preds2) r
                                      ∧ ¬ forecast.in_horizon m1 base1 (length preds1) r));
        [done|tauto].
    + apply Permutation_app_comm.
Qed.

Lemma persist_forecasts_commute_witness :
  forecasts (forecast.persist_forecasts
               (forecast.persist_forecasts sample_conn "M1" 0 [1%Q]) "M2" 0 [2%Q; 3%Q])
  ≡ₚ forecasts (forecast.persist_forecasts
                  (forecast.persist_forecasts sample_conn "M2" 0 [2%Q; 3%Q]) "M1" 0 [1%Q]).
Proof.
  apply (persist_forecasts_commute sample_conn "M1" "M2" 0 0 [1%Q] [2%Q; 3%Q]).
  discriminate.
Defined.

(** ** The series of a machine *)

(** X6. The series [main] builds for a machine holds the demands of exactly
    that machine's observations in timestamp order: it is the demand column
    of a rearrangement of the machine's rows of [raw_data] in which no row
    has a later timestamp than a row after it. So its last value, the one the
    naive forecast repeats 24 times, is the demand of an observation of the
    machine that none of its observations is later than. *)
Theorem naive_forecast_repeats_latest_demand
    (df : list Observation) (m : string)
    (Hm : m ∈ obs_machine_id <$> df) :
  forecast.machine_series df m
    ≡ₚ obs_production_demand <$> filter (λ o, obs_machine_id o = m) df
  ∧ ∃ rows o,
      rows ≡ₚ filter (λ o, obs_machine_id o = m) df
      ∧ StronglySorted
          (λ a b, to_instant (obs_timestamp a) ≤ to_instant (obs_timestamp b)) rows
      ∧ forecast.machine_series df m = obs_production_demand <$> rows
      ∧ last rows = Some o
      ∧ o ∈ df
      ∧ obs_machine_id o = m
      ∧ (∀ o', o' ∈ df → obs_machine_id o' = m →
           to_instant (obs_timestamp o') ≤ to_instant (obs_timestamp o))
      ∧ last (forecast.machine_series df m) = Some (obs_production_demand o)
      ∧ forecast.naive_forecast (forecast.machine_series df m)
        = Ok (replicate 24 (inject_Z (obs_production_demand o))).
Proof.
  destruct (machine_series_rows df m Hm)
    as (rows & o & Hperm & Hsorted & Hseries & Hlast & Ho & Hom & Hmax).
  split; [by rewrite Hseries, Hperm|].
  exists rows, o. repeat (split; [done|]).
  assert (last (forecast.machine_series df m) = Some (obs_production_demand o))
    as Hv by by rewrite Hseries, fmap_last, Hlast.
  split; [done|].
  unfold forecast.naive_forecast. by rewrite Hv.
Qed.

Lemma naive_forecast_repeats_latest_demand_witness :
  ∃ rows o,
    rows ≡ₚ filter (λ o, obs_machine_id o = "M1") stale_raw
    ∧ forecast.machine_series stale_raw "M1" = obs_production_demand <$> rows
    ∧ o ∈ stale_raw
    ∧ forecast.naive_forecast (forecast.machine_series stale_raw "M1")
      = Ok (replicate 24 (inject_Z (obs_production_demand o))).
Proof.
  destruct (naive_forecast_repeats_latest_demand stale_raw "M1")
    as (_ & rows & o & Hperm & _ & Hseries & _ & Ho & _ & _ & _ & Hnaive).
  { apply (bool_decide_unpack _). vm_compute. exact I. }
  by exists rows, o.
Defined.

(** ** The whole batch *)

Section batch_shape.
Import forecast.
Context `{ForecastLibs}.

Lemma join_cons {A : Type} (l : list A) (ls : list (list A)) :
  mjoin (l :: ls) = l ++ mjoin ls.
Proof. done. Qed.

Lemma batch_predictions_Ok df m sp :
  forecast_machine (machine_series df m) = Ok sp → batch_predictions df m = sp.2.
Proof. unfold batch_predictions. by intros ->. Qed.

(** The table after the loop: the rows no DELETE removed, then the rows of
    each machine in turn. *)
Lemma for_each_forecast_shape df now ms conn :
  NoDup ms →
  (∀ m, m ∈ ms → is_Some (last (machine_series df m))) →
  ∃ conn', for_each ms (forecast_step df now) conn = Ok conn'
    ∧ raw_data conn' = raw_data conn
    ∧ optimizations conn' = optimizations conn
    ∧ forecasts conn'
      = filter (outside_horizons df now ms) (forecasts conn)
        ++ mjoin ((λ m, forecast_data m now (batch_predictions df m)) <$> ms).
Proof.
  intros Hnd. revert conn.
  induction Hnd as [|m ms Hm Hnd IH]; intros conn Hlast.
  { exists conn. split; [done|]. split; [done|]. split; [done|].
    simpl. rewrite app_nil_r. symmetry. apply filter_all.
    apply Forall_forall. intros r _. constructor. }
  destruct (Hlast m) as [v Hv]; [left|].
  destruct (forecast_machine_returns _ v Hv) as [sp Hsp].
  rewrite for_each_cons, (forecast_step_Ok _ _ _ _ _ Hsp), result_bind_Ok.
  destruct (IH (persist_forecasts conn m now sp.2)) as (conn' & Hrun & Hraw & Hopt & Hfc).
  { intros m' Hm'. apply Hlast. by right. }
  exists conn'. split; [done|]. split; [done|]. split; [done|].
  rewrite Hfc, fmap_cons, join_cons, (batch_predictions_Ok _ _ _ Hsp).
  unfold persist_forecasts at 1. simpl.
  rewrite filter_app, <- app_assoc. f_equal; [|f_equal].
  - rewrite list_filter_filter. apply list_filter_iff.
    intros r. unfold outside_horizons. rewrite Forall_cons.
    rewrite (batch_predictions_Ok _ _ _ Hsp). tauto.
  - apply filter_all.
    eapply Forall_impl; [apply forecast_data_machine|].
    intros r Hr. simpl in Hr. apply Forall_forall.
    intros m' Hm' [Hmid _]. congruence.
Qed.

Lemma main_shape conn :
  ∃ conn', main conn = Ok conn'
    ∧ raw_data conn' = raw_data conn
    ∧ optimizations conn' = optimizations conn
    ∧ forecasts conn'
      = filter (outside_horizons (raw_data conn) (max_timestamp (raw_data conn))
                  (unique (obs_machine_id <$> raw_data conn))) (forecasts conn)
        ++ mjoin ((λ m, forecast_data m (max_timestamp (raw_data conn))
                           (batch_predictions (raw_data conn) m))
                   <$> unique (obs_machine_id <$> raw_data conn)).
Proof.
  unfold main, load_data.
  destruct (raw_data conn) as [|o df'] eqn:Hdf.
  { exists conn. split; [done|]. split; [done|]. split; [done|].
    simpl. rewrite app_nil_r. symmetry. apply filter_all.
    apply Forall_forall. intros r _. constructor. }
  rewrite <- Hdf.
  apply for_each_forecast_shape; [apply NoDup_unique|].
  intros m Hm. apply machine_series_last. by apply elem_of_unique.
Qed.


Lemma for_each_forecast_NoDup_keys df now ms conn conn' :
  for_each ms (forecast_step df now) conn = Ok conn' →
  NoDup (fc_key <$> forecasts conn) → NoDup (fc_key <$> forecasts conn').
Proof.
  revert conn. induction ms as [|m ms IH]; intros conn Hrun Hunique.
  { by injection Hrun as <-. }
  rewrite for_each_cons in Hrun.
  destruct (forecast_machine (machine_series df m)) as [sp|e] eqn:Hsp.
  - rewrite (forecast_step_Ok _ _ _ _ _ Hsp), result_bind_Ok in Hrun.
    eapply IH; [exact Hrun|]. by apply persist_forecasts_NoDup_keys.
  - assert (forecast_step df now conn m = Raise e) as Hstep
      by (unfold forecast_step; by rewrite Hsp).
    by rewrite Hstep in Hrun.
Qed.

End batch_shape.

(** X7. What a run of [main] does to the database: it always completes,
    leaves [raw_data] and [optimizations] alone, keeps in place every forecast
    row that lies in no machine's deleted horizon (so every row of a machine
    without observations) and appends the new rows machine by machine, in
    order of first appearance of the machines in [raw_data]. *)
Theorem main_rewrites_only_horizons `{forecast.ForecastLibs} (conn : DB) :
  let df := raw_data conn in
  let now := forecast.max_timestamp df in
  let machines := unique (obs_machine_id <$> df) in
  ∃ conn', forecast.main conn = Ok conn'
    ∧ raw_data conn' = raw_data conn
    ∧ optimizations conn' = optimizations conn
    ∧ forecasts conn'
      = filter (outside_horizons df now machines) (forecasts conn)
        ++ mjoin ((λ m, forecast.forecast_data m now (batch_predictions df m))
                   <$> machines)
    ∧ (∀ r, r ∈ forecasts conn → fc_machine_id r ∉ obs_machine_id <$> df →
         outside_horizons df now machines r)
    ∧ (∀ m r, m ∈ machines → r ∈ forecasts conn → fc_machine_id r = m →
         ¬ (now + timedelta_hours 1 ≤ fc_timestamp r
            ≤ now + timedelta_hours (Z.of_nat (length (batch_predictions df m)))) →
         outside_horizons df now machines r).
Proof.
  intros df now machines.
  destruct (main_shape conn) as (conn' & Hrun & Hraw & Hopt & Hfc).
  exists conn'. split; [done|]. split; [done|]. split; [done|]. split; [done|].
  split.
  - intros r _ Hr. apply Forall_forall.
    intros m Hm [Hmid _]. apply Hr. rewrite Hmid.
    exact (proj1 (elem_of_unique _ _) Hm).
  - intros m r Hm _ Hmid Hts. apply Forall_forall.
    intros m' Hm' (Hmid' & Hlo & Hhi).
    assert (m' = m) as -> by congruence. apply Hts. done.
Qed.



(** X9. [main] is idempotent: run again on the database it produced (the
    observations and the libraries' answers being the same), it returns that
    database unchanged. *)
Theorem main_idempotent `{forecast.ForecastLibs} (conn conn' : DB)
    (Hrun : forecast.main conn = Ok conn') :
  forecast.main conn' = Ok conn'.
Proof.
  destruct (main_shape conn) as (c1 & Hrun1 & Hraw1 & Hopt1 & Hfc1).
  assert (c1 = conn') as -> by congruence.
  destruct (main_shape conn') as (c2 & Hrun2 & Hraw2 & Hopt2 & Hfc2).
  rewrite Hrun2. f_equal.
  rewrite Hraw1 in Hfc2.
  assert (forecasts c2 = forecasts conn') as Hfc.
  { rewrite Hfc2, Hfc1. rewrite filter_app.
    rewrite list_filter_filter.
    rewrite (list_filter_iff _ (outside_horizons (raw_data conn)
      (forecast.max_timestamp (raw_data conn))
      (unique (obs_machine_id <$> raw_data conn)))) by tauto.
    rewrite <- app_assoc. f_equal.
    rewrite filter_none; [done|].
    apply Forall_forall. intros r (rows & Hr & (m & -> & Hm)%list_elem_of_fmap)%list_elem_of_join.
    intros Hout. unfold outside_horizons in Hout. rewrite Forall_forall in Hout.
    apply (Hout m Hm).
    pose proof (forecast_data_in_horizon m (forecast.max_timestamp (raw_data conn))
                  (batch_predictions (raw_data conn) m)) as Hall.
    rewrite Forall_forall in Hall. by apply Hall. }
  destruct c2, conn'. simpl in *. congruence.
Qed.

Lemma main_idempotent_witness :
  ∃ conn', forecast.main (H := failing_libs) gappy_plant = Ok conn'
    ∧ forecast.main (H := failing_libs) conn' = Ok conn'.
Proof.
  eexists. split; [vm_compute; reflexivity|].
  apply (main_idempotent (H := failing_libs) gappy_plant).
  vm_compute; reflexivity.
Defined.

(** X4. Forecast rows stay unique per (machine, timestamp): when no two rows
    of the table share machine and timestamp, the same holds after
    [persist_forecasts], and after a whole run of [main]. *)
Theorem forecast_keys_stay_unique `{forecast.ForecastLibs}
    (conn : DB) (Hunique : NoDup (fc_key <$> forecasts conn)) :
  (∀ m base preds,
     NoDup (fc_key <$> forecasts (forecast.persist_forecasts conn m base preds)))
  ∧ ∃ conn', forecast.main conn = Ok conn'
      ∧ NoDup (fc_key <$> forecasts conn').
Proof.
  split; [intros; by apply persist_forecasts_NoDup_keys|].
  destruct (main_shape conn) as (conn' & Hrun & _ & _ & _).
  exists conn'. split; [done|].
  unfold forecast.main, forecast.load_data in Hrun.
  destruct (raw_data conn) as [|o df'] eqn:Hdf; [by injection Hrun as <-|].
  by eapply for_each_forecast_NoDup_keys.
Qed.

Lemma forecast_keys_stay_unique_witness :
  ∃ conn', forecast.main (H := failing_libs) gappy_plant = Ok conn'
    ∧ NoDup (fc_key <$> forecasts conn').
Proof.
  apply (forecast_keys_stay_unique (H := failing_libs) gappy_plant).
  apply (bool_decide_unpack _). vm_compute. exact I.
Defined.

(** * Further properties of optimize.py *)

(** ** The inputs read by [fetch_data] *)

Section inputs.
Import optimize.

Lemma foldl_insert_lookup {K V : Type} `{Countable K} (f : K → V) (l : list K)
    (m0 : gmap K V) (k : K) :
  foldl (λ acc x, <[x := f x]> acc) m0 l !! k
  = if decide (k ∈ l) then Some (f k) else m0 !! k.
Proof.
  revert m0. induction l as [|x l IH]; intros m0; cbn [foldl].
  { rewrite decide_False; [done|]. by intros ?%elem_of_nil. }
  rewrite IH. destruct (decide (k ∈ l)) as [Hin|Hin].
  - rewrite decide_True; [done|]. by right.
  - destruct (decide (x = k)) as [->|Hne].
    + rewrite lookup_insert_eq, decide_True; [done|]. left.
    + rewrite lookup_insert_ne by done.
      rewrite decide_False; [done|].
      intros [?|?]%elem_of_cons; [congruence|done].
Qed.

Lemma fetch_energy_cost_map_lookup raw (k : string * Z) :
  fetch_energy_cost_map raw !! k
  = if decide (k ∈ (λ o, (obs_machine_id o, obs_hour o)) <$> raw)
    then Some (AVG (obs_energy_cost <$>
                      filter (λ o, (obs_machine_id o, obs_hour o) = k) raw))
    else None.
Proof.
  unfold fetch_energy_cost_map.
  rewrite (foldl_insert_lookup
    (λ k, AVG (obs_energy_cost <$>
                 filter (λ o, (obs_machine_id o, obs_hour o) = k) raw))).
  rewrite lookup_empty.
  destruct (decide (k ∈ unique _)) as [Hin|Hin].
  - rewrite decide_True; [done|]. exact (proj1 (elem_of_unique _ _) Hin).
  - rewrite decide_False; [done|].
    intros Hin'. apply Hin. exact (proj2 (elem_of_unique _ _) Hin').
Qed.

Lemma hour_of_range ts : 0 ≤ hour_of ts < 24.
Proof. unfold hour_of. apply Z.mod_pos_bound. lia. Qed.

Lemma Qsum_nonneg (l : list Q) : Forall (λ x, (0 <= x)%Q) l → (0 <= Qsum l)%Q.
Proof.
  induction 1 as [|x l Hx _ IH]; unfold Qsum in *; simpl; [apply Qle_refl|].
  change 0%Q with (0 + 0)%Q. by apply Qplus_le_compat.
Qed.

Lemma AVG_nonneg (l : list Q) : Forall (λ x, (0 <= x)%Q) l → (0 <= AVG l)%Q.
Proof.
  intros Hl. unfold AVG.
  unfold Qdiv. apply Qmult_le_0_compat; [by apply Qsum_nonneg|].
  apply Qinv_le_0_compat. unfold Qle. simpl. lia.
Qed.

Lemma fetch_specs_rows raw : fetch_specs raw = group_specs (specs_rows raw).
Proof.
  unfold fetch_specs, specs_rows.
  by destruct (sqlite.max_text _).
Qed.

Lemma loc_group_specs rows m :
  loc (group_specs rows) m
  = if decide (m ∈ obs_machine_id <$> rows)
    then Ok {| spec_machine_id := m;
               energy_per_unit :=
                 AVG (obs_energy_per_unit <$> filter (λ o, obs_machine_id o = m) rows);
               max_capacity :=
                 AVG ((λ o, inject_Z (obs_max_capacity o))
                        <$> filter (λ o, obs_machine_id o = m) rows) |}
    else Raise (KeyError m).
Proof.
  unfold loc, group_specs.
  destruct (list_find _ _) as [[i spec]|] eqn:Hfind.
  - apply list_find_Some in Hfind as (Hi & Hm & _).
    rewrite list_lookup_fmap in Hi.
    destruct (merge_sort String.le (unique (obs_machine_id <$> rows)) !! i)
      as [m'|] eqn:Hm'; [|done].
    simpl in Hi. injection Hi as <-. simpl in Hm. subst m'.
    apply list_elem_of_lookup_2 in Hm'.
    rewrite merge_sort_Permutation in Hm'.
    rewrite decide_True; [done|]. exact (proj1 (elem_of_unique _ _) Hm').
  - apply list_find_None in Hfind. rewrite Forall_fmap, Forall_forall in Hfind.
    rewrite decide_False; [done|]. intros Hin.
    apply (Hfind m); [|done].
    rewrite merge_sort_Permutation. exact (proj2 (elem_of_unique _ _) Hin).
Qed.
End inputs.

(** X10. The unit price used for a variable is the average [energy_cost] of
    the observations of that machine at the hour of day of the timestamp
    (an hour between 0 and 23), and the default 0.15 when the machine has no
    observation at that hour. *)
Theorem cost_get_average (raw : list Observation) (m : string) (ts : Z) :
  let at_hour :=
    filter (λ o, (obs_machine_id o, obs_hour o) = (m, hour_of ts)) raw in
  0 ≤ hour_of ts < 24
  ∧ optimize.cost_get (optimize.fetch_energy_cost_map raw) (m, ts)
    = (if decide (at_hour = []) then 15 # 100
       else AVG (obs_energy_cost <$> at_hour)).
Proof.
  intros at_hour. split; [apply hour_of_range|].
  unfold optimize.cost_get. simpl. rewrite fetch_energy_cost_map_lookup.
  fold at_hour.
  destruct (decide (at_hour = [])) as [Hnil|Hne].
  - rewrite decide_False; [done|].
    intros (o & Hk & Ho)%list_elem_of_fmap.
    assert (o ∈ at_hour) as Hin by (by apply list_elem_of_filter).
    rewrite Hnil in Hin. by apply elem_of_nil in Hin.
  - rewrite decide_True; [done|].
    destruct at_hour as [|o rest] eqn:Hat; [done|].
    assert (o ∈ at_hour) as Ho by (rewrite Hat; left).
    apply list_elem_of_filter in Ho as [Hk Ho].
    apply list_elem_of_fmap. by exists o.
Qed.

(** X11. The specification of a machine is looked up among the per-machine
    averages of the observations that pass the query's WHERE clause: for a
    machine with such an observation [loc] gives the averages of its
    [energy_per_unit] and [max_capacity] over them, for any other machine it
    raises [KeyError]; in particular on an empty [raw_data] every lookup
    raises. *)
Theorem specs_lookup (raw : list Observation) (m : string) :
  let mine := filter (λ o, obs_machine_id o = m) (specs_rows raw) in
  optimize.loc (optimize.fetch_specs raw) m
  = (if decide (mine = []) then Raise (KeyError m)
     else Ok {| optimize.spec_machine_id := m;
                optimize.energy_per_unit := AVG (obs_energy_per_unit <$> mine);
                optimize.max_capacity :=
                  AVG ((λ o, inject_Z (obs_max_capacity o)) <$> mine) |})
  ∧ (raw = [] → optimize.loc (optimize.fetch_specs raw) m = Raise (KeyError m)).
Proof.
  intros mine.
  assert (optimize.loc (optimize.fetch_specs raw) m
    = (if decide (mine = []) then Raise (KeyError m)
       else Ok {| optimize.spec_machine_id := m;
                  optimize.energy_per_unit := AVG (obs_energy_per_unit <$> mine);
                  optimize.max_capacity :=
                    AVG ((λ o, inject_Z (obs_max_capacity o)) <$> mine) |})) as Hloc.
  { rewrite fetch_specs_rows, loc_group_specs. fold mine.
    destruct (decide (mine = [])) as [Hnil|Hne].
    - rewrite decide_False; [done|].
      intros (o & Hk & Ho)%list_elem_of_fmap.
      assert (o ∈ mine) as Hin by (by apply list_elem_of_filter).
      rewrite Hnil in Hin. by apply elem_of_nil in Hin.
    - rewrite decide_True; [done|].
      destruct mine as [|o rest] eqn:Hmine; [done|].
      assert (o ∈ mine) as Ho by (rewrite Hmine; left).
      apply list_elem_of_filter in Ho as [Hk Ho].
      apply list_elem_of_fmap. by exists o. }
  split; [done|].
  intros ->. rewrite Hloc. subst mine. done.
Qed.

(** ** Missing specifications *)

Section key_errors.
Import optimize.
Context `{ORTools}.

Lemma loc_Raise specs_df mid e : loc specs_df mid = Raise e → e = KeyError mid.
Proof. unfold loc. destruct (list_find _ _) as [[? ?]|]; [done|]. by intros [= <-]. Qed.

(** A loop whose body looks up the machine of each pair: it completes when
    every lookup succeeds and otherwise raises the [KeyError] of a pair's
    machine. *)
Lemma for_each_loc {S : Type} specs_df (g : S → string * Z → MachineSpec → S)
    (vars : list (string * Z)) (s : S) :
  match for_each vars (λ s var, spec ← loc specs_df var.1; Ok (g s var spec)) s with
  | Ok _ => Forall (λ var, ∃ spec, loc specs_df var.1 = Ok spec) vars
  | Raise e => ∃ var, var ∈ vars ∧ e = KeyError var.1
                 ∧ loc specs_df var.1 = Raise (KeyError var.1)
  end.
Proof.
  revert s. induction vars as [|var vars IH]; intros s; [by constructor|].
  rewrite for_each_cons.
  destruct (loc specs_df var.1) as [spec|e] eqn:Hloc; simpl.
  - specialize (IH (g s var spec)).
    destruct (for_each vars _ _) as [s'|e].
    + constructor; [by exists spec|done].
    + destruct IH as (var' & Hin & -> & Hloc'). exists var'.
      split; [by right|done].
  - pose proof (loc_Raise _ _ _ Hloc) as ->. exists var. split; [left|done].
Qed.

Lemma result_row_Ok specs_df energy_cost_map pred_map solution_value var spec :
  loc specs_df var.1 = Ok spec →
  ∃ row, result_row specs_df energy_cost_map pred_map solution_value var = Ok row.
Proof. intros Hloc. unfold result_row. rewrite Hloc. by eexists. Qed.

Lemma build_results_Ok specs_df energy_cost_map pred_map solution_value vars :
  Forall (λ var, ∃ spec, loc specs_df var.1 = Ok spec) vars →
  ∃ rows, build_results specs_df energy_cost_map pred_map solution_value vars = Ok rows.
Proof.
  intros Hall. unfold build_results.
  assert (∀ acc, ∃ rows,
    for_each vars (λ results var,
      row ← result_row specs_df energy_cost_map pred_map solution_value var;
      Ok (results ++ [row])) acc = Ok rows) as Hgen; [|apply Hgen].
  induction Hall as [|var vars [spec Hloc] _ IH]; intros acc; [by eexists|].
  rewrite for_each_cons. cbn beta.
  destruct (result_row_Ok specs_df energy_cost_map pred_map solution_value var spec Hloc)
    as [row ->].
  rewrite result_bind_Ok. apply IH.
Qed.

Lemma sorted_timestamps_nil forecast_df :
  sorted_timestamps forecast_df = [] → forecast_df = [].
Proof.
  intros Hnil. destruct forecast_df as [|r l]; [done|].
  assert (fc_timestamp r ∈ sorted_timestamps (r :: l)) as Hin.
  { apply elem_of_sorted_timestamps. left. }
  rewrite Hnil in Hin. by apply elem_of_nil in Hin.
Qed.
End key_errors.

Lemma result_bind_Raise {A B : Type} (e : exn) (k : A → result B) :
  Raise e ≫= k = Raise e.
Proof. done. Qed.

Section key_errors_runs.
Import optimize.
Context `{ORTools}.

Lemma build_model_cases specs_df energy_cost_map pred_map machines timestamps s :
  match build_model specs_df energy_cost_map pred_map machines timestamps s with
  | Ok _ => Forall (λ var, ∃ spec, loc specs_df var.1 = Ok spec)
                   (pairs machines timestamps)
  | Raise e => ∃ var, var ∈ pairs machines timestamps ∧ e = KeyError var.1
                 ∧ loc specs_df var.1 = Raise (KeyError var.1)
  end.
Proof.
  unfold build_model.
  pose proof (for_each_loc specs_df (λ s var spec, NumVar s 0 (max_capacity spec) var)
                (pairs machines timestamps) s) as Hvars.
  change (for_each (pairs machines timestamps) _ s)
    with (define_variables specs_df (pairs machines timestamps) s) in Hvars.
  destruct (define_variables _ _ _) as [s1|e]; [|done]. simpl.
  set (s2 := add_demand_constraints _ _ _).
  pose proof (for_each_loc specs_df
    (λ s var spec, SetCoefficient s var
                     (energy_per_unit spec * cost_get energy_cost_map var)%Q)
    (pairs machines timestamps) s2) as Hobj.
  change (for_each (pairs machines timestamps) _ s2)
    with (define_objective specs_df energy_cost_map (pairs machines timestamps) s2)
    in Hobj.
  destruct (define_objective _ _ _ _) as [s3|e]; done.
Qed.

Lemma pairs_machine m ts machines timestamps :
  (m, ts) ∈ pairs machines timestamps → m ∈ machines.
Proof. by intros [? _]%elem_of_pairs. Qed.
End key_errors_runs.

(** X12. [optimize_all] raises only [KeyError], and only for a machine that
    has forecasts but no specification: when every machine of the forecast
    table has a specification the run returns normally; when forecasts exist,
    a solver is available and some forecast machine has no specification, the
    run raises the [KeyError] of such a machine before anything is solved or
    written. *)
Theorem optimize_all_key_error `{optimize.ORTools} (conn : DB) :
  let specs_df := optimize.fetch_specs (raw_data conn) in
  let missing (m : string) :=
    m ∈ fc_machine_id <$> forecasts conn
    ∧ optimize.loc specs_df m = Raise (KeyError m) in
  ((∀ m, m ∈ fc_machine_id <$> forecasts conn →
         ∃ spec, optimize.loc specs_df m = Ok spec) →
   ∃ report conn', optimize.optimize_all conn = Ok (report, conn'))
  ∧ (∀ e, optimize.optimize_all conn = Raise e → ∃ m, missing m ∧ e = KeyError m)
  ∧ (optimize.SCIP_available = true → ∀ m, missing m →
     ∃ m', missing m' ∧ optimize.optimize_all conn = Raise (KeyError m')).
Proof.
  intros specs_df missing.
  assert (∀ m ts, (m, ts) ∈ optimize.pairs
            (optimize.sorted_machines (optimize.fetch_data conn).1.1)
            (optimize.sorted_timestamps (optimize.fetch_data conn).1.1) →
          m ∈ fc_machine_id <$> forecasts conn) as Hpairs.
  { intros m ts [Hm _]%elem_of_pairs.
    apply elem_of_sorted_machines in Hm.
    unfold optimize.fetch_data in Hm. simpl in Hm.
    by rewrite merge_sort_Permutation in Hm. }
  assert (∀ e, optimize.optimize_all conn = Raise e → ∃ m, missing m ∧ e = KeyError m)
    as Hraise.
  { intros e. unfold optimize.optimize_all.
    change (optimize.fetch_data conn)
      with ((optimize.fetch_data conn).1.1, specs_df, (optimize.fetch_data conn).2).
    cbv iota beta.
    destruct (optimize.fetch_data conn).1.1 as [|r forecast_df] eqn:Hdf; [done|].
    rewrite <- Hdf in Hpairs |- *.
    destruct optimize.CreateSolver as [solver|]; [|done].
    pose proof (build_model_cases specs_df (optimize.fetch_data conn).2
      (optimize.build_pred_map (optimize.fetch_data conn).1.1)
      (optimize.sorted_machines (optimize.fetch_data conn).1.1)
      (optimize.sorted_timestamps (optimize.fetch_data conn).1.1) solver) as Hmodel.
    destruct (optimize.build_model _ _ _ _ _ _) as [s|e'].
    - rewrite result_bind_Ok. destruct (optimize.Solve s) as [status solution_value].
      case_decide; [|done].
      destruct (build_results_Ok specs_df (optimize.fetch_data conn).2
        (optimize.build_pred_map (optimize.fetch_data conn).1.1) solution_value
        _ Hmodel) as [rows ->]. done.
    - rewrite result_bind_Raise. intros [= <-].
      destruct Hmodel as ([m ts] & Hin & -> & Hloc).
      exists m. split; [|done]. split; [by eapply Hpairs|done]. }
  split; [|split; [done|]].
  - intros Hall.
    destruct (optimize.optimize_all conn) as [[report conn']|e] eqn:Hrun; [by eauto|].
    destruct (Hraise e eq_refl) as (m & [Hm Hloc] & _).
    destruct (Hall m Hm) as [spec Hspec]. congruence.
  - intros Hscip m [Hm Hloc].
    destruct (optimize.optimize_all conn) as [[report conn']|e] eqn:Hrun.
    + exfalso. revert Hrun. unfold optimize.optimize_all.
      change (optimize.fetch_data conn)
        with ((optimize.fetch_data conn).1.1, specs_df, (optimize.fetch_data conn).2).
      cbv iota beta.
      assert ((optimize.fetch_data conn).1.1 ≠ []) as Hne.
      { rewrite forecast_frame_nil. intros Hnil. rewrite Hnil in Hm.
        by apply elem_of_nil in Hm. }
      destruct (optimize.fetch_data conn).1.1 as [|r forecast_df] eqn:Hdf; [done|].
      rewrite <- Hdf in Hpairs |- *.
      unfold optimize.CreateSolver. rewrite Hscip.
      pose proof (build_model_cases specs_df (optimize.fetch_data conn).2
        (optimize.build_pred_map (optimize.fetch_data conn).1.1)
        (optimize.sorted_machines (optimize.fetch_data conn).1.1)
        (optimize.sorted_timestamps (optimize.fetch_data conn).1.1)
        optimize.empty_solver) as Hmodel.
      destruct (optimize.build_model _ _ _ _ _ _) as [s|e']; [|done].
      exfalso.
      assert (∃ ts, ts ∈ optimize.sorted_timestamps (optimize.fetch_data conn).1.1)
        as [ts Hts].
      { exists (fc_timestamp r). apply elem_of_sorted_timestamps.
        rewrite Hdf. left. }
      rewrite Forall_forall in Hmodel.
      destruct (Hmodel (m, ts)) as [spec Hspec].
      { apply elem_of_pairs. split; [|done].
        apply elem_of_sorted_machines.
        unfold optimize.fetch_data. simpl. by rewrite merge_sort_Permutation. }
      simpl in Hspec. fold specs_df in Hloc. congruence.
    + destruct (Hraise e eq_refl) as (m' & Hmiss & ->). by exists m'.
Qed.

Lemma optimize_all_key_error_witness :
  optimize.optimize_all (H := idle_solver) orphan_forecast = Raise (KeyError "C")
  ∧ ∃ report conn', optimize.optimize_all (H := idle_solver) gappy_plant
                    = Ok (report, conn').
Proof.
  split; [vm_compute; reflexivity|].
  apply (optimize_all_key_error (H := idle_solver) gappy_plant).
  intros m Hm. simpl in Hm.
  repeat (apply elem_of_cons in Hm as [->|Hm]; [eexists; vm_compute; reflexivity|]).
  by apply elem_of_nil in Hm.
Defined.

(** ** What a saved run leaves behind *)

Section saved_more.
Import optimize.
Context `{ORTools}.

Lemma length_pairs machines timestamps :
  length (pairs machines timestamps) = (length machines * length timestamps)%nat.
Proof.
  induction machines as [|m machines IH]; [done|].
  rewrite pairs_cons, length_app, length_fmap, IH. simpl. lia.
Qed.

(** The old contents of [optimizations] play no part in a saved run. *)
Lemma optimize_all_ignores_old_results conn conn' old :
  optimize_all conn = Ok (Saved, conn') →
  optimize_all (set_optimizations conn old) = Ok (Saved, conn')
  ∧ conn' = set_optimizations conn (optimizations conn').
Proof.
  unfold optimize_all, fetch_data. simpl.
  destruct (merge_sort fc_before (forecasts conn)) as [|r forecast_df]; [done|].
  destruct CreateSolver as [solver|]; [|done].
  destruct (build_model _ _ _ _ _ _) as [s|e]; [|done].
  simpl. destruct (Solve s) as [status solution_value].
  case_decide; [|done].
  destruct (build_results _ _ _ _ _) as [rows|e]; [|done].
  simpl. by intros [= <-].
Qed.
End saved_more.

(** X13. A saved run replaces the whole result table and nothing else: the
    new table has one row per pair of a forecast machine and a forecast
    timestamp (so their product in number), [raw_data] and [forecasts] are as
    before, the previous result rows have no influence on the outcome, and
    running [optimize_all] again on the saved database saves the same
    database. *)
Theorem saved_run_replaces_results `{optimize.ORTools} (conn conn' : DB)
    (Hrun : optimize.optimize_all conn = Ok (optimize.Saved, conn')) :
  raw_data conn' = raw_data conn
  ∧ forecasts conn' = forecasts conn
  ∧ length (optimizations conn')
    = (length (unique (fc_machine_id <$> forecasts conn))
       * length (unique (fc_timestamp <$> forecasts conn)))%nat
  ∧ (∀ old, optimize.optimize_all (set_optimizations conn old)
            = Ok (optimize.Saved, conn'))
  ∧ optimize.optimize_all conn' = Ok (optimize.Saved, conn').
Proof.
  pose proof (optimize_all_ignores_old_results conn conn' [] Hrun) as [_ Hshape].
  split; [by rewrite Hshape|]. split; [by rewrite Hshape|]. split; [|split].
  - pose proof (saved_run_keys conn conn' Hrun) as Hkeys.
    apply (f_equal length) in Hkeys.
    rewrite length_fmap, length_pairs in Hkeys. rewrite Hkeys.
    unfold optimize.sorted_machines, optimize.sorted_timestamps,
      optimize.fetch_data. simpl.
    assert (∀ (A : Type) `{EqDecision A} (l k : list A), l ≡ₚ k →
              length (unique l) = length (unique k)) as Hperm.
    { intros A ? l k Hlk. apply Permutation_length, NoDup_Permutation;
        [apply NoDup_unique..|].
      intros x. split; intros Hx.
      - apply (proj2 (elem_of_unique _ _)). rewrite <- Hlk.
        exact (proj1 (elem_of_unique _ _) Hx).
      - apply (proj2 (elem_of_unique _ _)). rewrite Hlk.
        exact (proj1 (elem_of_unique _ _) Hx). }
    f_equal;
      (etrans; [apply Permutation_length, merge_sort_Permutation|]);
      apply Hperm; apply fmap_Permutation, merge_sort_Permutation.
  - intros old. by apply optimize_all_ignores_old_results.
  - rewrite Hshape at 1. by apply optimize_all_ignores_old_results.
Qed.

Lemma saved_run_replaces_results_witness :
  optimize.optimize_all (H := follow_demand_solver) gappy_plant_saved
  = Ok (optimize.Saved, gappy_plant_saved)
  ∧ length (optimizations gappy_plant_saved) = 4%nat.
Proof.
  pose proof (saved_run_replaces_results (H := follow_demand_solver)
    gappy_plant gappy_plant_saved ltac:(vm_compute; reflexivity))
    as (_ & _ & Hlen & _ & Hagain).
  split; [exact Hagain|]. rewrite Hlen. reflexivity.
Defined.

Section row_order.
Import optimize.

Lemma StronglySorted_strict {A : Type} (R : relation A) (l : list A) :
  StronglySorted R l → NoDup l → StronglySorted (λ a b, R a b ∧ a ≠ b) l.
Proof.
  induction 1 as [|x l Hl IH Hx]; intros Hnd; [constructor|].
  apply NoDup_cons in Hnd as [Hnotin Hnd].
  constructor; [by apply IH|].
  rewrite Forall_forall in Hx. apply Forall_forall.
  intros y Hy. split; [by apply Hx|]. intros ->. done.
Qed.

Lemma StronglySorted_pairs machines timestamps :
  StronglySorted (λ a b, String.le a b ∧ a ≠ b) machines →
  StronglySorted Z.lt timestamps →
  StronglySorted key_lt (pairs machines timestamps).
Proof.
  intros Hm Hts. induction Hm as [|m machines Hm IH Hall]; [constructor|].
  rewrite pairs_cons. apply StronglySorted_app_2; [|
    |by apply IH].
  - intros [m1 t1] [m2 t2] (t & [= -> ->] & _)%list_elem_of_fmap Hin.
    apply elem_of_pairs in Hin as [Hin _].
    rewrite Forall_forall in Hall. left. simpl. by apply Hall.
  - eapply StronglySorted_fmap; [|exact Hts].
    intros t1 t2 Hlt. right. done.
Qed.
End row_order.

(** X14. The rows of a saved run are written in ascending order of machine
    id and, within a machine, of timestamp: every row comes before every
    later row in that order. *)
Theorem saved_rows_are_ordered `{optimize.ORTools} (conn conn' : DB)
    (Hrun : optimize.optimize_all conn = Ok (optimize.Saved, conn')) :
  StronglySorted key_lt
    ((λ r, (opt_machine_id r, opt_timestamp r)) <$> optimizations conn').
Proof.
  rewrite (saved_run_keys conn conn' Hrun).
  apply StronglySorted_pairs.
  - apply StronglySorted_strict; [|apply NoDup_sorted_machines].
    apply StronglySorted_merge_sort; apply _.
  - assert (StronglySorted (λ a b, a ≤ b ∧ a ≠ b)
              (optimize.sorted_timestamps (optimize.fetch_data conn).1.1)) as Hs.
    { apply StronglySorted_strict; [|apply NoDup_sorted_timestamps].
      apply StronglySorted_merge_sort; apply _. }
    clear Hrun. induction Hs as [|t l _ IH Ht]; constructor; [done|].
    eapply Forall_impl; [exact Ht|]. intros t' [? ?]. simpl in *. lia.
Qed.

Lemma saved_rows_are_ordered_witness :
  StronglySorted key_lt
    ((λ r, (opt_machine_id r, opt_timestamp r)) <$> optimizations gappy_plant_saved).
Proof.
  apply (saved_rows_are_ordered (H := follow_demand_solver) gappy_plant).
  vm_compute; reflexivity.
Defined.

(** ** Costs *)

Section costs.
Import optimize.
Context `{ORTools}.

Lemma result_row_costs specs_df energy_cost_map pred_map solution_value var row :
  result_row specs_df energy_cost_map pred_map solution_value var = Ok row →
  ∃ spec, loc specs_df var.1 = Ok spec
    ∧ opt_hour row = hour_of var.2
    ∧ optimized_cost row
      = (solution_value var * energy_per_unit spec * cost_get energy_cost_map var)%Q
    ∧ baseline_cost row
      = (py_min (pred_get pred_map var) (max_capacity spec)
         * energy_per_unit spec * cost_get energy_cost_map var)%Q.
Proof.
  unfold result_row. destruct (loc specs_df var.1) as [spec|e]; [|done].
  simpl. intros [= <-]. by exists spec.
Qed.

Lemma saved_run_costs conn conn' :
  optimize_all conn = Ok (Saved, conn') →
  ∃ solution_value,
    Forall2 (λ var row,
        ∃ spec, loc (fetch_data conn).1.2 var.1 = Ok spec
          ∧ opt_hour row = hour_of var.2
          ∧ optimized_cost row
            = (solution_value var * energy_per_unit spec
               * cost_get (fetch_data conn).2 var)%Q
          ∧ baseline_cost row
            = (py_min (pred_get (build_pred_map (fetch_data conn).1.1) var)
                      (max_capacity spec)
               * energy_per_unit spec * cost_get (fetch_data conn).2 var)%Q
          ∧ optimized_production row = solution_value var)
      (pairs (sorted_machines (fetch_data conn).1.1)
             (sorted_timestamps (fetch_data conn).1.1))
      (optimizations conn').
Proof.
  intros Hrun. apply optimize_all_Saved in Hrun
    as (solver & solution_value & rows & _ & _ & Hrows & ->).
  exists solution_value. apply build_results_spec in Hrows. simpl.
  eapply Forall2_impl; [exact Hrows|].
  intros var row Hrow.
  destruct (result_row_costs _ _ _ _ _ _ Hrow) as (spec & Hloc & Hh & Hoc & Hbc).
  apply result_row_spec in Hrow as (spec' & Hloc' & _ & _ & _ & Hopt & _).
  by exists spec.
Qed.

Lemma specs_rows_subseteq raw o : o ∈ specs_rows raw → o ∈ raw.
Proof.
  unfold specs_rows. destruct (sqlite.max_text _); [|by intros ?%elem_of_nil].
  by intros [_ ?]%list_elem_of_filter.
Qed.

Lemma loc_fetch_specs_nonneg raw m spec :
  Forall (λ o, (0 <= obs_energy_per_unit o)%Q) raw →
  loc (fetch_specs raw) m = Ok spec → (0 <= energy_per_unit spec)%Q.
Proof.
  intros Hraw. rewrite fetch_specs_rows, loc_group_specs.
  case_decide; [|done]. intros [= <-]. simpl.
  apply AVG_nonneg, Forall_fmap, Forall_forall.
  intros o [_ Ho%specs_rows_subseteq]%list_elem_of_filter.
  rewrite Forall_forall in Hraw. by apply Hraw.
Qed.

Lemma cost_get_nonneg raw var :
  Forall (λ o, (0 <= obs_energy_cost o)%Q) raw →
  (0 <= cost_get (fetch_energy_cost_map raw) var)%Q.
Proof.
  intros Hraw. unfold cost_get. rewrite fetch_energy_cost_map_lookup.
  case_decide; simpl; [|by unfold default_cost, Qle].
  apply AVG_nonneg, Forall_fmap, Forall_forall.
  intros o [_ Ho]%list_elem_of_filter.
  rewrite Forall_forall in Hraw. by apply Hraw.
Qed.
End costs.

(** X15. Assume the solver reports [OPTIMAL] only with a feasible solution and
    no observation has a negative [energy_per_unit] or [energy_cost]. Then in
    every saved row the hour is the hour of day of the timestamp, the
    optimized cost is not negative and does not exceed the baseline cost, and
    the optimized production is below the stored (truncated) baseline
    production plus one. *)
Theorem optimized_cost_within_baseline `{optimize.ORTools}
    (Hsound : optimize.solver_sound) (conn conn' : DB)
    (Hrun : optimize.optimize_all conn = Ok (optimize.Saved, conn'))
    (Hraw : Forall (λ o, (0 <= obs_energy_per_unit o)%Q ∧ (0 <= obs_energy_cost o)%Q)
                   (raw_data conn)) :
  ∀ row, row ∈ optimizations conn' →
    opt_hour row = hour_of (opt_timestamp row)
    ∧ 0 ≤ opt_hour row < 24
    ∧ (0 <= optimized_cost row)%Q
    ∧ (optimized_cost row <= baseline_cost row)%Q
    ∧ (optimized_production row < inject_Z (baseline_production row) + 1)%Q.
Proof.
  intros row Hrow.
  destruct (optimal_run_solution conn conn' Hsound Hrun) as (sol & Hrows & _).
  destruct (saved_run_costs conn conn' Hrun) as (sol' & Hcosts).
  apply list_elem_of_lookup in Hrow as [i Hi].
  destruct (Forall2_lookup_r _ _ _ _ _ Hrows Hi)
    as (var & Hvar & spec & Hloc & _ & Hts & Hopt & Hbase & Hlb & Hub & Hdem).
  destruct (Forall2_lookup_r _ _ _ _ _ Hcosts Hi)
    as (var' & Hvar' & spec' & Hloc' & Hhour & Hoc & Hbc & Hopt').
  assert (var' = var) as -> by congruence.
  assert (spec' = spec) as -> by congruence.
  assert (sol' var = sol var) as Hsol by congruence.
  rewrite Hsol in Hoc. clear Hsol Hopt' Hcosts Hvar'.
  assert ((0 <= optimize.energy_per_unit spec)%Q) as Hepu.
  { eapply loc_fetch_specs_nonneg; [|exact Hloc].
    eapply Forall_impl; [exact Hraw|]. by intros o [? _]. }
  assert ((0 <= optimize.cost_get (optimize.fetch_data conn).2 var)%Q) as Hcost.
  { apply cost_get_nonneg. eapply Forall_impl; [exact Hraw|]. by intros o [_ ?]. }
  set (minimum := py_min
    (optimize.pred_get (optimize.build_pred_map (optimize.fetch_data conn).1.1) var)
    (optimize.max_capacity spec)) in *.
  assert ((sol var <= minimum)%Q) as Hmin.
  { subst minimum. unfold py_min. by destruct (Qlt_le_dec _ _). }
  split; [by rewrite Hhour, Hts|]. split; [rewrite Hhour; apply hour_of_range|].
  rewrite Hoc, Hbc, Hopt, Hbase. split; [|split].
  - apply Qmult_le_0_compat; [by apply Qmult_le_0_compat|done].
  - apply Qmult_le_compat_r; [|done]. by apply Qmult_le_compat_r.
  - destruct (py_int_spec minimum) as [Hpos _].
    destruct Hpos as [_ Hlt]; [by apply (Qle_trans _ (sol var))|].
    eapply Qle_lt_trans; [exact Hmin|exact Hlt].
Qed.

Lemma optimized_cost_within_baseline_witness :
  Forall (λ row, (optimized_cost row <= baseline_cost row)%Q)
         (optimizations gappy_plant_saved).
Proof.
  apply Forall_forall. intros row Hrow.
  apply (optimized_cost_within_baseline (H := follow_demand_solver)
           (checking_solver_sound follow_demand) gappy_plant gappy_plant_saved);
    [vm_compute; reflexivity| |done].
  repeat constructor; vm_compute; discriminate.
Defined.

(** X16. Assume the solver reports [OPTIMAL] only with a feasible solution.
    If some (machine, timestamp) of the forecast table has only negative
    predicted demands, no run saves anything: the demand ceiling of that pair
    is below the lower bound 0 of its variable, so the model is infeasible
    and the database is returned as it was. *)
Theorem negative_forecast_blocks_saving `{optimize.ORTools}
    (Hsound : optimize.solver_sound) (conn : DB) (r : ForecastPoint)
    (Hr : r ∈ forecasts conn)
    (Hneg : ∀ r', r' ∈ forecasts conn → fc_key r' = fc_key r →
                  (fc_predicted_demand r' < 0)%Q) :
  ∀ report conn', optimize.optimize_all conn = Ok (report, conn') →
    report ≠ optimize.Saved ∧ conn' = conn.
Proof.
  intros report conn' Hrun.
  assert (report ≠ optimize.Saved) as Hreport.
  { intros ->.
    destruct (optimal_run_solution conn conn' Hsound Hrun) as (sol & Hrows & _).
    assert (fc_key r ∈ optimize.pairs
              (optimize.sorted_machines (optimize.fetch_data conn).1.1)
              (optimize.sorted_timestamps (optimize.fetch_data conn).1.1)) as Hin.
    { apply elem_of_pairs. split.
      - apply elem_of_sorted_machines, list_elem_of_fmap. exists r.
        by rewrite elem_of_forecast_frame.
      - apply elem_of_sorted_timestamps, list_elem_of_fmap. exists r.
        by rewrite elem_of_forecast_frame. }
    apply list_elem_of_lookup in Hin as [i Hi].
    destruct (Forall2_lookup_l _ _ _ _ _ Hrows Hi)
      as (row & _ & spec & _ & _ & _ & _ & _ & Hlb & _ & Hdem).
    pose proof (build_pred_map_lookup (optimize.fetch_data conn).1.1 (fc_key r)) as Hl.
    unfold optimize.pred_get in Hdem.
    destruct (optimize.build_pred_map _ !! fc_key r) as [p|].
    - destruct Hl as (r' & Hr'%elem_of_forecast_frame & Hkey & <-).
      specialize (Hneg r' Hr' Hkey). simpl in Hdem. lra.
    - apply (Hl r); [by rewrite elem_of_forecast_frame|done]. }
  split; [done|]. by eapply optimize_all_not_Saved.
Qed.

Lemma negative_forecast_blocks_saving_witness :
  optimize.optimize_all (H := idle_solver) negative_demand_plant
    = Ok (optimize.NoOptimalSolution, negative_demand_plant)
  ∧ optimize.NoOptimalSolution ≠ optimize.Saved.
Proof.
  split; [vm_compute; reflexivity|].
  eapply (negative_forecast_blocks_saving (H := idle_solver)
            (checking_solver_sound _) negative_demand_plant
            (mk_ForecastPoint 1705280400 "A" (-5 # 1))).
  - left.
  - intros r' Hr' _. apply list_elem_of_singleton in Hr' as ->. reflexivity.
  - vm_compute; reflexivity.
Defined.

(** ** The optimum of the model *)

Section optimum.
Import optimize.

Lemma define_variables_Forall (P : (string * Z) * (Q * Q) → Prop)
    specs_df vars s s' :
  (∀ var spec, var ∈ vars → P (var, (0%Q, max_capacity spec))) →
  Forall P (variables s) →
  define_variables specs_df vars s = Ok s' →
  Forall P (variables s').
Proof.
  unfold define_variables. revert s.
  induction vars as [|var vars IH]; intros s HP Hs Hrun.
  { by injection Hrun as <-. }
  rewrite for_each_cons in Hrun.
  destruct (loc specs_df var.1) as [spec|e]; [|done].
  simpl in Hrun. eapply IH; [|..|exact Hrun].
  - intros var' spec' Hin. apply HP. by right.
  - simpl. apply Forall_app. split; [done|].
    constructor; [|constructor]. apply HP. left.
Qed.

Lemma define_objective_lookup specs_df energy_cost_map vars s s' k c :
  define_objective specs_df energy_cost_map vars s = Ok s' →
  objective s' !! k = Some c →
  objective s !! k = Some c
  ∨ (k ∈ vars ∧ ∃ spec, loc specs_df k.1 = Ok spec
       ∧ c = (energy_per_unit spec * cost_get energy_cost_map k)%Q).
Proof.
  unfold define_objective. revert s.
  induction vars as [|var vars IH]; intros s Hrun Hk.
  { injection Hrun as <-. by left. }
  rewrite for_each_cons in Hrun.
  destruct (loc specs_df var.1) as [spec|e] eqn:Hloc; [|done].
  simpl in Hrun. destruct (IH _ Hrun Hk) as [Hold|(Hin & spec' & Hloc' & ->)].
  - simpl in Hold. destruct (decide (var = k)) as [->|Hne].
    + rewrite lookup_insert_eq in Hold. injection Hold as <-.
      right. split; [left|]. by exists spec.
    + rewrite lookup_insert_ne in Hold by done. by left.
  - right. split; [by right|]. by exists spec'.
Qed.

Lemma loc_elem_of specs_df mid spec : loc specs_df mid = Ok spec → spec ∈ specs_df.
Proof.
  unfold loc. destruct (list_find _ _) as [[i s]|] eqn:Hfind; [|done].
  intros [= <-]. apply list_find_Some in Hfind as (Hi & _).
  by eapply list_elem_of_lookup_2.
Qed.

(** The model built on a fresh solver, exactly. *)
Lemma build_model_exact specs_df energy_cost_map pred_map machines timestamps s :
  build_model specs_df energy_cost_map pred_map machines timestamps empty_solver
    = Ok s →
  minimization s = true
  ∧ Forall (λ v, v.1 ∈ pairs machines timestamps ∧ v.2.1 = 0%Q) (variables s)
  ∧ constraints s
    = ((λ ts, {| terms := (λ m, (1%Q, (m, ts))) <$> machines;
                 upper := plant_capacity_limit specs_df |}) <$> timestamps)
      ++ ((λ var, {| terms := [(1%Q, var)]; upper := pred_get pred_map var |})
            <$> pairs machines timestamps)
  ∧ (∀ k c, objective s !! k = Some c →
       k ∈ pairs machines timestamps
       ∧ ∃ spec, spec ∈ specs_df
           ∧ c = (energy_per_unit spec * cost_get energy_cost_map k)%Q).
Proof.
  unfold build_model. intros Hrun.
  destruct (define_variables specs_df (pairs machines timestamps) empty_solver)
    as [s1|e] eqn:Hvars; [|done].
  rewrite result_bind_Ok in Hrun. cbv zeta in Hrun.
  destruct (define_objective _ _ _ _) as [s2|e] eqn:Hobj; [|done].
  rewrite result_bind_Ok in Hrun. injection Hrun as <-.
  split; [done|]. simpl.
  pose proof (define_objective_spec _ _ _ _ _ Hobj) as [Hv Hc].
  destruct (add_demand_constraints_spec pred_map (pairs machines timestamps)
    (add_plant_constraints specs_df machines timestamps s1)) as (Hv2 & Ho2 & Hc2).
  destruct (add_plant_constraints_spec specs_df machines timestamps s1)
    as (Hv1 & Ho1 & Hc1).
  destruct (define_variables_spec _ _ _ _ Hvars) as (Hc0 & Ho0 & _ & _).
  split; [|split].
  - rewrite Hv, Hv2, Hv1.
    apply (define_variables_Forall
             (λ v, v.1 ∈ pairs machines timestamps ∧ v.2.1 = 0%Q)
             specs_df (pairs machines timestamps) empty_solver s1);
      [by intros var spec Hin|constructor|exact Hvars].
  - rewrite Hc, Hc2, Hc1, Hc0. done.
  - intros k c Hk.
    destruct (define_objective_lookup _ _ _ _ _ _ _ Hobj Hk)
      as [Hold|(Hin & spec & Hloc & ->)].
    + rewrite Ho2, Ho1, Ho0 in Hold. simpl in Hold. by rewrite lookup_empty in Hold.
    + split; [done|]. exists spec. split; [by eapply loc_elem_of|done].
Qed.

Lemma Qsum_zero (l : list Q) : Forall (λ x, (x == 0)%Q) l → (Qsum l == 0)%Q.
Proof.
  induction 1 as [|x l Hx _ IH]; unfold Qsum in *; simpl; [reflexivity|].
  rewrite Hx, IH. reflexivity.
Qed.
End optimum.

(** X17. In the model [optimize_all] builds, producing nothing is always the
    cheapest plan: when no machine has a negative energy intensity and no
    unit price is negative, every feasible solution leaves the all-zero
    solution feasible as well, the all-zero solution costs 0, and no feasible
    solution costs less. The objective is set to minimisation. *)
Theorem zero_production_is_optimal
    (specs_df : list optimize.MachineSpec)
    (energy_cost_map pred_map : gmap (string * Z) Q)
    (machines : list string) (timestamps : list Z) (s : optimize.Solver)
    (x : string * Z → Q)
    (Hmodel : optimize.build_model specs_df energy_cost_map pred_map machines
                timestamps optimize.empty_solver = Ok s)
    (Hepu : Forall (λ spec, (0 <= optimize.energy_per_unit spec)%Q) specs_df)
    (Hcost : ∀ var, (0 <= optimize.cost_get energy_cost_map var)%Q)
    (Hx : optimize.feasible s x) :
  optimize.minimization s = true
  ∧ optimize.feasible s (λ _, 0%Q)
  ∧ (objective_value s (λ _, 0%Q) == 0)%Q
  ∧ (objective_value s (λ _, 0%Q) <= objective_value s x)%Q.
Proof.
  destruct (build_model_exact _ _ _ _ _ _ Hmodel) as (Hmin & Hvars & Hcons & Hobj).
  destruct (build_model_spec _ _ _ _ _ _ _ Hmodel) as (Hbounded & _ & _).
  destruct Hx as [Hxv Hxc].
  rewrite Forall_forall in Hxv. rewrite Forall_forall in Hvars.
  rewrite Forall_forall in Hepu. rewrite Forall_forall in Hxc.
  assert (∀ var, var ∈ optimize.pairs machines timestamps → (0 <= x var)%Q) as Hpos.
  { intros var Hvar. destruct (Hbounded var Hvar) as (spec & _ & Hin).
    by destruct (Hxv _ Hin) as [? _]. }
  assert (∀ c, c ∈ optimize.constraints s →
            Forall (λ t, (0 <= t.1)%Q ∧ t.2 ∈ optimize.pairs machines timestamps)
                   (optimize.terms c)) as Hterms.
  { intros c. rewrite Hcons.
    intros [(ts & -> & Hts)%list_elem_of_fmap|(var & -> & Hvar)%list_elem_of_fmap]%elem_of_app;
      simpl.
    - apply Forall_fmap, Forall_forall. intros m Hm. simpl.
      split; [done|]. by apply elem_of_pairs.
    - by repeat constructor. }
  assert ((objective_value s (λ _, 0%Q) == 0)%Q) as Hzero.
  { unfold objective_value. apply Qsum_zero, Forall_fmap, Forall_forall.
    intros kc _. simpl. ring. }
  split; [done|]. split; [split|split; [done|]].
  - apply Forall_forall. intros v Hv.
    destruct (Hvars v Hv) as [_ Hlb]. destruct (Hxv v Hv) as [Hl Hu].
    unfold optimize.within_bounds. rewrite Hlb in *. split; [apply Qle_refl|].
    by apply (Qle_trans _ (x v.1)).
  - apply Forall_forall. intros c Hc.
    specialize (Hterms c Hc). specialize (Hxc c Hc).
    unfold optimize.constraint_holds in *.
    rewrite Qsum_zero.
    2:{ apply Forall_fmap, Forall_forall. intros t _. simpl. ring. }
    eapply Qle_trans; [|exact Hxc].
    apply Qsum_nonneg, Forall_fmap.
    eapply Forall_impl; [exact Hterms|].
    intros t [Hcoef Hin]. simpl. apply Qmult_le_0_compat; [done|by apply Hpos].
  - rewrite Hzero. unfold objective_value.
    apply Qsum_nonneg, Forall_fmap, Forall_forall.
    intros [k c] Hkc%elem_of_map_to_list. simpl.
    destruct (Hobj k c Hkc) as (Hk & spec & Hspec & ->).
    apply Qmult_le_0_compat; [|by apply Hpos].
    apply Qmult_le_0_compat; [by apply Hepu|apply Hcost].
Qed.

Lemma zero_production_is_optimal_witness :
  optimize.feasible gappy_model follow_demand
  ∧ optimize.minimization gappy_model = true
  ∧ optimize.feasible gappy_model (λ _, 0%Q)
  ∧ (objective_value gappy_model (λ _, 0%Q) == 0)%Q
  ∧ (objective_value gappy_model (λ _, 0%Q) <= objective_value gappy_model follow_demand)%Q.
Proof.
  assert (optimize.feasible gappy_model follow_demand) as Hx
    by (apply (bool_decide_unpack _); vm_compute; exact I).
  split; [exact Hx|].
  eapply (zero_production_is_optimal
            (optimize.fetch_data gappy_plant).1.2 (optimize.fetch_data gappy_plant).2
            (optimize.build_pred_map (optimize.fetch_data gappy_plant).1.1)
            (optimize.sorted_machines (optimize.fetch_data gappy_plant).1.1)
            (optimize.sorted_timestamps (optimize.fetch_data gappy_plant).1.1)
            gappy_model follow_demand).
  - vm_compute; reflexivity.
  - apply (bool_decide_unpack _). vm_compute. exact I.
  - intros var. apply cost_get_nonneg.
    apply (bool_decide_unpack _). vm_compute. exact I.
  - exact Hx.
Defined.

(** ** The WHERE clause of the specification query, in general *)

Lemma compare_app_Lt (a b r : string) :
  String.compare a b = Lt → String.compare a (b +:+ r) = Lt.
Proof.
  revert b. induction a as [|c a IH]; intros [|c' b] H; simpl in H; try done.
  change (String c' b +:+ r) with (String c' (b +:+ r)). simpl.
  destruct (Ascii.compare c c'); try done. by apply IH.
Qed.

Lemma compare_self_app (s : string) (c : ascii) (r : string) :
  String.compare s (s +:+ String c r) = Lt.
Proof.
  induction s as [|c' s IH]; [done|].
  change (String c' s +:+ String c r) with (String c' (s +:+ String c r)). simpl.
  assert (Ascii.compare c' c' = Eq) as ->
    by (unfold Ascii.compare; by rewrite N.compare_refl).
  exact IH.
Qed.

Lemma compare_app_Gt (a b r : string) :
  String.length a = String.length b →
  String.compare a b = Gt → String.compare a (b +:+ r) = Gt.
Proof.
  revert b. induction a as [|c a IH]; intros [|c' b] Hlen H; simpl in Hlen, H; try done.
  change (String c' b +:+ r) with (String c' (b +:+ r)). simpl.
  destruct (Ascii.compare c c'); try done. apply IH; [lia|done].
Qed.

Lemma leading_digits_dash (s r : string) (acc : Z) :
  sqlite.leading_digits (s +:+ String "-" r) acc = sqlite.leading_digits (s +:+ "-") acc.
Proof.
  revert acc. induction s as [|c s IH]; intros acc; [done|].
  change (String c s +:+ String "-" r) with (String c (s +:+ String "-" r)).
  change (String c s +:+ "-") with (String c (s +:+ "-")). simpl.
  destruct (sqlite.digit_of c); [apply IH|done].
Qed.

Lemma to_numeric_dash (c : ascii) (s r : string) :
  is_Some (sqlite.digit_of c) →
  sqlite.to_numeric (String c s +:+ String "-" r) = sqlite.to_numeric (String c s +:+ "-").
Proof.
  intros Hc.
  assert (∀ t, sqlite.to_numeric (String c t) = sqlite.leading_digits (String c t) 0) as Hhead.
  { intros t. destruct Hc as [d Hd].
    destruct c as [[] [] [] [] [] [] [] []]; vm_compute in Hd;
      first [discriminate Hd|reflexivity]. }
  change (String c s +:+ String "-" r) with (String c (s +:+ String "-" r)).
  change (String c s +:+ "-") with (String c (s +:+ "-")).
  rewrite !Hhead. apply (leading_digits_dash (String c s)).
Qed.

(** The texts of the four-digit years, checked year by year. *)
Lemma year_text_padded (y : Z) :
  1000 ≤ y ≤ 9999 → sqlite.zero_pad 4 y = pretty y.
Proof.
  assert (Forall (λ y, sqlite.zero_pad 4 y = pretty y) (seqZ 1000 9000)) as Hall
    by (apply (bool_decide_unpack _); vm_compute; exact I).
  intros Hy. rewrite Forall_forall in Hall. apply Hall, elem_of_seqZ. lia.
Qed.

Lemma year_text_length (y : Z) :
  1000 ≤ y ≤ 9999 → String.length (pretty y) = 4%nat.
Proof.
  assert (Forall (λ y, String.length (pretty y) = 4%nat) (seqZ 1000 9000)) as Hall
    by (apply (bool_decide_unpack _); vm_compute; exact I).
  intros Hy. rewrite Forall_forall in Hall. apply Hall, elem_of_seqZ. lia.
Qed.

Lemma year_text_numeric (y : Z) :
  1000 ≤ y ≤ 9999 → sqlite.to_numeric (pretty y +:+ "-") = y.
Proof.
  assert (Forall (λ y, sqlite.to_numeric (pretty y +:+ "-") = y) (seqZ 1000 9000))
    as Hall by (apply (bool_decide_unpack _); vm_compute; exact I).
  intros Hy. rewrite Forall_forall in Hall. apply Hall, elem_of_seqZ. lia.
Qed.

Lemma year_text_head (y : Z) :
  1000 ≤ y ≤ 9999 →
  match pretty y with
  | String c _ => bool_decide (is_Some (sqlite.digit_of c))
  | EmptyString => false
  end = true.
Proof.
  assert (Forall (λ y, match pretty y with
                       | String c _ => bool_decide (is_Some (sqlite.digit_of c))
                       | EmptyString => false
                       end = true) (seqZ 1000 9000))
    as Hall by (apply (bool_decide_unpack _); vm_compute; exact I).
  intros Hy. rewrite Forall_forall in Hall. apply Hall, elem_of_seqZ. lia.
Qed.

Lemma year_text_next (y : Z) :
  1000 ≤ y ≤ 9998 → String.le (pretty y) (pretty (y + 1)).
Proof.
  assert (Forall (λ y, String.le (pretty y) (pretty (y + 1))) (seqZ 1000 8999))
    as Hall by (apply (bool_decide_unpack _); vm_compute; exact I).
  intros Hy. rewrite Forall_forall in Hall. apply Hall, elem_of_seqZ. lia.
Qed.

Lemma year_text_mono (a b : Z) :
  1000 ≤ a → a < b → b ≤ 9999 → String.compare (pretty a) (pretty b) = Lt.
Proof.
  intros Ha Hab Hb.
  assert (∀ n : nat, a + Z.of_nat n ≤ 9999 →
            String.le (pretty a) (pretty (a + Z.of_nat n))) as Hle.
  { induction n as [|n IH]; intros Hn.
    - by replace (a + Z.of_nat 0) with a by lia.
    - etrans; [apply IH; lia|].
      replace (a + Z.of_nat (S n)) with (a + Z.of_nat n + 1) by lia.
      apply year_text_next. lia. }
  specialize (Hle (Z.to_nat (b - a))).
  replace (a + Z.of_nat (Z.to_nat (b - a))) with b in Hle by lia.
  specialize (Hle Hb). unfold String.le, String.leb in Hle.
  destruct (String.compare (pretty a) (pretty b)) eqn:Hc; [|done|done].
  apply String.compare_eq_iff in Hc. apply (inj pretty) in Hc. lia.
Qed.

Lemma strftime_year (t : datetime) :
  ∃ r, sqlite.strftime t = sqlite.zero_pad 4 (dt_year t) +:+ String "-" r.
Proof. by eexists. Qed.

Lemma to_numeric_strftime (t : datetime) :
  1000 ≤ dt_year t ≤ 9999 → sqlite.to_numeric (sqlite.strftime t) = dt_year t.
Proof.
  intros Hy. destruct (strftime_year t) as [r ->].
  rewrite (year_text_padded _ Hy).
  pose proof (year_text_numeric _ Hy) as Hnum.
  pose proof (year_text_head _ Hy) as Hhead.
  destruct (pretty (dt_year t)) as [|c s] eqn:Hp; [done|].
  apply bool_decide_eq_true in Hhead.
  by rewrite to_numeric_dash.
Qed.

Lemma in_specs_window_year (latest : datetime) (o : Observation) :
  1001 ≤ dt_year latest ≤ 9999 →
  1000 ≤ dt_year (obs_timestamp o) ≤ 9999 →
  optimize.in_specs_window (sqlite.strftime latest) o = true
  ↔ dt_year latest - 1 ≤ dt_year (obs_timestamp o).
Proof.
  intros Hl Ho.
  unfold optimize.in_specs_window, sqlite.text_column_gt, sqlite.text_minus.
  rewrite to_numeric_strftime by lia.
  change (sqlite.to_numeric "1 day") with 1.
  destruct (strftime_year (obs_timestamp o)) as [r ->].
  rewrite (year_text_padded _ Ho).
  pose proof (year_text_length _ Ho) as Hlen.
  assert (1000 ≤ dt_year latest - 1 ≤ 9999) as Hl' by lia.
  pose proof (year_text_length _ Hl') as Hlen'.
  unfold String.ltb.
  destruct (Z.lt_total (dt_year latest - 1) (dt_year (obs_timestamp o)))
    as [Hlt|[Heq|Hgt]].
  - rewrite compare_app_Lt; [split; [lia|done]|].
    apply year_text_mono; lia.
  - rewrite Heq, compare_self_app. split; [lia|done].
  - rewrite compare_app_Gt; [split; [done|lia]|congruence|].
    rewrite String.compare_antisym, year_text_mono; [done|lia..].
Qed.

(** X18. The WHERE clause of the specification query of [fetch_data] selects
    by calendar year: with four-digit years, an observation passes exactly
    when its year is not earlier than the year before the year of the latest
    timestamp, whatever its month, day and time of day. *)
Theorem specs_window_is_by_year (raw : list Observation) (latest : datetime)
    (o : Observation)
    (Hmax : sqlite.max_text ((λ o, sqlite.strftime (obs_timestamp o)) <$> raw)
            = Some (sqlite.strftime latest))
    (Hlatest : 1001 ≤ dt_year latest ≤ 9999)
    (Ho : 1000 ≤ dt_year (obs_timestamp o) ≤ 9999) :
  o ∈ specs_rows raw
  ↔ o ∈ raw ∧ dt_year latest - 1 ≤ dt_year (obs_timestamp o).
Proof.
  unfold specs_rows. rewrite Hmax, list_elem_of_filter.
  rewrite <- (in_specs_window_year latest o Hlatest Ho).
  split; intros [H1 H2]; split; try done.
  - by apply Is_true_true.
  - by apply Is_true_true.
Qed.

Lemma specs_window_is_by_year_witness :
  sqlite.max_text ((λ o, sqlite.strftime (obs_timestamp o)) <$> stale_raw)
  = Some (sqlite.strftime (mk_datetime 2024 1 15 0 0 0))
  ∧ (stale_old ∈ specs_rows stale_raw
     ↔ stale_old ∈ stale_raw ∧ 2024 - 1 ≤ dt_year (obs_timestamp stale_old)).
Proof.
  split; [vm_compute; reflexivity|].
  apply (specs_window_is_by_year stale_raw (mk_datetime 2024 1 15 0 0 0) stale_old).
  - vm_compute; reflexivity.
  - simpl; lia.
  - simpl; lia.
Defined.

Lemma max_text_elem_of (l : list string) (mx : string) :
  sqlite.max_text l = Some mx → mx ∈ l.
Proof.
  destruct l as [|s l]; [done|]. simpl. intros [= <-].
  induction l as [|x l IH]; simpl; [by left|].
  destruct (String.ltb _ x).
  - right. by left.
  - apply elem_of_cons in IH as [->|IH]; [by left|]. right. by right.
Qed.

(** X19. When all observations fall in one calendar year (1001 to 9999), the
    WHERE clause of the specification query drops nothing: the specification
    of a machine is the average over its whole history, however long. *)
Theorem specs_average_whole_year (raw : list Observation) (y : Z)
    (Hy : 1001 ≤ y ≤ 9999)
    (Hraw : Forall (λ o, dt_year (obs_timestamp o) = y) raw) :
  specs_rows raw = raw
  ∧ optimize.fetch_specs raw = optimize.group_specs raw.
Proof.
  assert (specs_rows raw = raw) as Hrows.
  { unfold specs_rows.
    destruct (sqlite.max_text _) as [mx|] eqn:Hmax.
    - apply max_text_elem_of, list_elem_of_fmap in Hmax as (latest & -> & Hlatest).
      rewrite Forall_forall in Hraw.
      apply filter_all, Forall_forall. intros o Ho.
      apply Is_true_true, in_specs_window_year.
      + rewrite (Hraw _ Hlatest). lia.
      + rewrite (Hraw _ Ho). lia.
      + rewrite (Hraw _ Hlatest), (Hraw _ Ho). lia.
    - by destruct raw. }
  split; [done|].
  unfold optimize.fetch_specs. unfold specs_rows in Hrows.
  destruct (sqlite.max_text _); [by rewrite Hrows|].
  by rewrite <- Hrows.
Qed.

Lemma specs_average_whole_year_witness :
  specs_rows stale_raw = stale_raw
  ∧ optimize.fetch_specs stale_raw = optimize.group_specs stale_raw.
Proof.
  apply (specs_average_whole_year stale_raw 2024); [lia|].
  by repeat constructor.
Defined.
